(** * Veo Source Analyzer: the response parser and the analysis client

    A shallow embedding of [parseAnalysisResult] and [handleAnalyzeVideo]
    (src/App.tsx) and of [analyzeVideo] (services/geminiService), with the
    properties their specification states about them; then of
    [fileToBase64] (utils/fileUtils), [handleFileChange] and the result
    section of the page, with further properties of the code.

    A JavaScript string is a sequence of UTF-16 code units.  Every string
    primitive the code uses ([match] against a literal-delimited pattern,
    [trim], [split], [startsWith]) works code unit by code unit, so a string
    is modelled as a list of code units and the primitives as functions over
    such lists. *)

From Stdlib Require Import Ascii String Bool Arith NArith Lia List.
Import ListNotations.

(** ** JavaScript strings *)

Module Js.

Definition code_unit := N.
Definition jsstring := list code_unit.

(** An ASCII literal of the source, as code units. *)
Definition lit (s : string) : jsstring :=
  map N_of_ascii (list_ascii_of_string s).

(** Truthiness of a string: [!s] holds of the empty string only. *)
Definition isEmpty (s : jsstring) : bool :=
  match s with
  | [] => true
  | _ :: _ => false
  end.

(** [s.startsWith(p)] *)
Fixpoint startsWith (s p : jsstring) {struct p} : bool :=
  match p with
  | [] => true
  | c :: p' =>
      match s with
      | [] => false
      | d :: s' => N.eqb c d && startsWith s' p'
      end
  end.

(** What is left of [s] once the literal [p] has been consumed at its
    start; [None] when [s] does not start with [p]. *)
Fixpoint consume (p s : jsstring) : option jsstring :=
  match p with
  | [] => Some s
  | c :: p' =>
      match s with
      | [] => None
      | d :: s' => if N.eqb c d then consume p' s' else None
      end
  end.

(** WhiteSpace and LineTerminator code points of ECMAScript: what
    [String.prototype.trim] strips. *)
Definition isWhiteSpace (c : code_unit) : bool :=
  (N.eqb c 9 || N.eqb c 10 || N.eqb c 11 || N.eqb c 12 || N.eqb c 13
   || N.eqb c 32 || N.eqb c 160 || N.eqb c 5760
   || (N.leb 8192 c && N.leb c 8202)
   || N.eqb c 8232 || N.eqb c 8233 || N.eqb c 8239 || N.eqb c 8287
   || N.eqb c 12288 || N.eqb c 65279)%bool.

Fixpoint trimStart (s : jsstring) : jsstring :=
  match s with
  | [] => []
  | c :: s' => if isWhiteSpace c then trimStart s' else s
  end.

Definition trimEnd (s : jsstring) : jsstring := rev (trimStart (rev s)).

(** [s.trim()] *)
Definition trim (s : jsstring) : jsstring := trimEnd (trimStart s).

(** [s.split(sep)] for a separator of one code unit: the pieces between
    the separators, a single empty piece for the empty string. *)
Fixpoint split (sep : code_unit) (s : jsstring) : list jsstring :=
  match s with
  | [] => [[]]
  | c :: s' =>
      if N.eqb c sep then [] :: split sep s'
      else match split sep s' with
           | piece :: pieces => (c :: piece) :: pieces
           | [] => [[c]]
           end
  end.

(** [pieces.join(sep)], the inverse the statements about lines use. *)
Fixpoint join (sep : code_unit) (pieces : list jsstring) : jsstring :=
  match pieces with
  | [] => []
  | [p] => p
  | p :: ps => p ++ sep :: join sep ps
  end.

(** *** The three patterns

    The patterns of the parser are a literal [A], a captured star over the
    class of all code units (backslash-s together with backslash-S), and,
    in two of them, a literal [B] after a lazy star.  A backtracking matcher
    tries the start positions from the left; at a start position it consumes
    [A], then lets the lazy star take no code unit, one, two, ... until [B]
    follows.  The functions return capture group 1 of the first match. *)

(** The lazy star followed by the literal [b]: the shortest prefix of [s]
    after which [b] follows. *)
Fixpoint lazyUntil (b s : jsstring) : option jsstring :=
  if startsWith s b then Some []
  else match s with
       | [] => None
       | c :: s' => option_map (cons c) (lazyUntil b s')
       end.

(** The pattern "A, lazy star, B" tried at the start of [s] only. *)
Definition betweenHere (a b s : jsstring) : option jsstring :=
  match consume a s with
  | Some rest => lazyUntil b rest
  | None => None
  end.

(** [s.match] of the pattern "A, lazy star, B": capture group 1 of the
    leftmost match. *)
Fixpoint matchBetween (a b s : jsstring) : option jsstring :=
  match betweenHere a b s with
  | Some capture => Some capture
  | None =>
      match s with
      | [] => None
      | _ :: s' => matchBetween a b s'
      end
  end.

(** [s.match] of the pattern "A, greedy star": capture group 1 of the
    leftmost match; the greedy star takes the rest of the string and the
    pattern ends there. *)
Fixpoint matchAfter (a s : jsstring) : option jsstring :=
  match consume a s with
  | Some rest => Some rest
  | None =>
      match s with
      | [] => None
      | _ :: s' => matchAfter a s'
      end
  end.

(** Whether an occurrence of [m] starts at one of the positions
    [0 .. n-1] of [s]. *)
Fixpoint occursBefore (m : jsstring) (n : nat) (s : jsstring) : bool :=
  match n with
  | O => false
  | S n' =>
      startsWith s m
      || match s with
         | [] => false
         | _ :: s' => occursBefore m n' s'
         end
  end.

(** [s.includes(m)] *)
Definition includes (s m : jsstring) : bool :=
  occursBefore m (S (length s)) s.

(** A string of white space only (the empty string included). *)
Definition isBlank (s : jsstring) : bool := forallb isWhiteSpace s.

(** A string in which the code unit [c] does not occur. *)
Definition lacks (c : code_unit) (s : jsstring) : bool :=
  negb (existsb (N.eqb c) s).

End Js.

Import Js.

(** ** The response parser (src/App.tsx) *)

Record TableRow := {
  timestamp : jsstring;
  action : jsstring;
  notes : jsstring
}.

Record ParsedAnalysis := {
  globalCohesionBlock : jsstring;
  sceneBreakdown : list TableRow;
  technicalAnalysis : jsstring
}.

Definition GLOBAL_COHESION_BLOCK : jsstring := lit "GLOBAL COHESION BLOCK".
Definition DETAILED_SCENE_BREAKDOWN_TABLE : jsstring :=
  lit "DETAILED SCENE BREAKDOWN TABLE".
Definition TECHNICAL_STYLE_ANALYSIS : jsstring :=
  lit "TECHNICAL STYLE ANALYSIS".

Definition newline : code_unit := 10%N.
Definition pipe : code_unit := 124%N.

(** [match ? match[1].trim() : ''] *)
Definition trimmedCapture (m : option jsstring) : jsstring :=
  match m with
  | Some capture => trim capture
  | None => []
  end.

(** [row.split('|').map(cell => cell.trim()).filter(cell => cell)] *)
Definition cells (row : jsstring) : list jsstring :=
  filter (fun cell => negb (isEmpty cell)) (map trim (split pipe row)).

(** The callback of [.map(row => ...)]: a [TableRow] for exactly three
    cells, [null] otherwise. *)
Definition rowOfLine (row : jsstring) : option TableRow :=
  match cells row with
  | [c0; c1; c2] => Some {| timestamp := c0; action := c1; notes := c2 |}
  | _ => None
  end.

(** [.filter(row => row !== null)] *)
Fixpoint dropNull (rows : list (option TableRow)) : list TableRow :=
  match rows with
  | [] => []
  | Some r :: rows' => r :: dropNull rows'
  | None :: rows' => dropNull rows'
  end.

(** The rows of a list of lines: [.map(...).filter(...)]. *)
Definition rowsOfLines (lines : list jsstring) : list TableRow :=
  dropNull (map rowOfLine lines).

(** The local constants of [parseAnalysisResult], as functions of [text]. *)
Definition globalCohesionBlockOf (text : jsstring) : jsstring :=
  trimmedCapture
    (matchBetween GLOBAL_COHESION_BLOCK DETAILED_SCENE_BREAKDOWN_TABLE text).

Definition tableStringOf (text : jsstring) : jsstring :=
  trimmedCapture
    (matchBetween DETAILED_SCENE_BREAKDOWN_TABLE TECHNICAL_STYLE_ANALYSIS text).

Definition sceneBreakdownOf (text : jsstring) : list TableRow :=
  rowsOfLines (skipn 2 (split newline (tableStringOf text))).

Definition technicalAnalysisOf (text : jsstring) : jsstring :=
  trimmedCapture (matchAfter TECHNICAL_STYLE_ANALYSIS text).

(** [parseAnalysisResult]; [None] is [null].  No primitive of the [try]
    block throws on a string (a matched pattern always binds its group 1),
    so the [catch] branch, which also returns [null], is never entered. *)
Definition parseAnalysisResult (text : jsstring) : option ParsedAnalysis :=
  let globalCohesionBlock := globalCohesionBlockOf text in
  let sceneBreakdown := sceneBreakdownOf text in
  let technicalAnalysis := technicalAnalysisOf text in
  if isEmpty globalCohesionBlock
     && Nat.eqb (length sceneBreakdown) 0
     && isEmpty technicalAnalysis
  then None
  else Some {| globalCohesionBlock := globalCohesionBlock;
               sceneBreakdown := sceneBreakdown;
               technicalAnalysis := technicalAnalysis |}.

(** ** The analysis client (services/geminiService) and its caller

    An [async] function either returns or throws; what it throws is any
    JavaScript value, of which the code only asks whether it is an
    [instanceof Error] and, if so, reads its [message].  The one effect the
    claims speak of is the request sent to the remote model, so a
    computation threads the log of the requests sent so far. *)

Inductive Thrown :=
| ErrorInstance (message : jsstring)
| NotAnError.

Inductive Completion (A : Type) :=
| Returns (value : A)
| Throws (reason : Thrown).

Arguments Returns {A} value.
Arguments Throws {A} reason.

Record EncodedMedia := {
  base64Data : jsstring;
  mimeType : jsstring
}.

(** The argument of [ai.models.generateContent]. *)
Record GenerateContentParameters := {
  model : jsstring;
  inlineData : EncodedMedia;
  textPart : jsstring;
  thinkingBudget : N
}.

Module Async.

Definition t (A : Type) : Type :=
  list GenerateContentParameters ->
  Completion A * list GenerateContentParameters.

Definition ret {A} (a : A) : t A := fun sent => (Returns a, sent).

Definition throw {A} (e : Thrown) : t A := fun sent => (Throws e, sent).

Definition bind {A B} (m : t A) (k : A -> t B) : t B :=
  fun sent =>
    match m sent with
    | (Returns a, sent') => k a sent'
    | (Throws e, sent') => (Throws e, sent')
    end.

(** [try { body } catch (e) { handler e }] *)
Definition tryCatch {A} (body : t A) (handler : Thrown -> t A) : t A :=
  fun sent =>
    match body sent with
    | (Returns a, sent') => (Returns a, sent')
    | (Throws e, sent') => handler e sent'
    end.

(** [await] of a call whose outcome the environment decides and which
    sends nothing to the remote model. *)
Definition await {A} (outcome : Completion A) : t A :=
  fun sent => (outcome, sent).

(** Run from an empty log. *)
Definition run {A} (m : t A) : Completion A * list GenerateContentParameters :=
  m [].

End Async.

Declare Scope async_scope.
Delimit Scope async_scope with async.
Notation "x <- m ;; k" := (Async.bind m (fun x => k))
  (at level 61, m at next level, right associativity) : async_scope.

Section Client.

(** The browser's [File] objects. *)
Variable File : Type.

(** [fileToBase64] of utils/fileUtils, awaited: the encoded payload with
    its MIME type, or whatever the promise rejects with. *)
Variable fileToBase64 : File -> Completion EncodedMedia.

(** [ai.models.generateContent], awaited, as the [text] of the response or
    whatever the call rejects with. *)
Variable generateContent : GenerateContentParameters -> Completion jsstring.

(** The instruction template, a constant of the client. *)
Variable PROMPT : jsstring.

Definition callGenerateContent (request : GenerateContentParameters)
  : Async.t jsstring :=
  fun sent => (generateContent request, sent ++ [request]).

Definition invalidFileType : jsstring :=
  lit "Invalid file type. Please upload a video file.".

Definition unknownAnalysisError : jsstring :=
  lit "An unknown error occurred during video analysis.".

Definition analyzeVideo (videoFile : File) : Async.t jsstring :=
  Async.tryCatch
    (media <- Async.await (fileToBase64 videoFile) ;;
     if negb (startsWith (mimeType media) (lit "video/"))
     then Async.throw (ErrorInstance invalidFileType)
     else
       text <- callGenerateContent
                 {| model := lit "gemini-2.5-pro";
                    inlineData := {| base64Data := base64Data media;
                                     mimeType := mimeType media |};
                    textPart := PROMPT;
                    thinkingBudget := 32768 |} ;;
       Async.ret text)%async
    (fun error =>
       match error with
       | ErrorInstance message => Async.ret (lit "Error: " ++ message)
       | NotAnError => Async.ret unknownAnalysisError
       end).

(** What the [catch] block of [analyzeVideo] returns for a thrown value,
    by itself. *)
Definition caught (e : Thrown) : jsstring :=
  match e with
  | ErrorInstance message => lit "Error: " ++ message
  | NotAnError => unknownAnalysisError
  end.

(** The request [analyzeVideo] builds for an encoded file, by itself. *)
Definition requestOf (media : EncodedMedia) : GenerateContentParameters :=
  {| model := lit "gemini-2.5-pro";
     inlineData := {| base64Data := base64Data media;
                      mimeType := mimeType media |};
     textPart := PROMPT;
     thinkingBudget := 32768 |}.

(** The state of the [App] component that [handleAnalyzeVideo] reads and
    sets. *)
Record AppState := {
  videoFile : option File;
  isLoading : bool;
  analysisResult : option jsstring;
  error : option jsstring
}.

Definition setIsLoading (b : bool) (st : AppState) : AppState :=
  {| videoFile := videoFile st; isLoading := b;
     analysisResult := analysisResult st; error := error st |}.

Definition setAnalysisResult (r : option jsstring) (st : AppState) : AppState :=
  {| videoFile := videoFile st; isLoading := isLoading st;
     analysisResult := r; error := error st |}.

Definition setError (e : option jsstring) (st : AppState) : AppState :=
  {| videoFile := videoFile st; isLoading := isLoading st;
     analysisResult := analysisResult st; error := e |}.

Definition handleAnalyzeVideo (st : AppState) : Async.t AppState :=
  match videoFile st with
  | None =>
      Async.ret (setError (Some (lit "Please select a video file first.")) st)
  | Some file =>
      let st := setIsLoading true st in
      let st := setAnalysisResult None st in
      let st := setError None st in
      (st <- Async.tryCatch
               (result <- analyzeVideo file ;;
                if startsWith result (lit "Error:")
                then Async.throw (ErrorInstance result)
                else Async.ret (setAnalysisResult (Some result) st))
               (fun e =>
                  let errorMessage :=
                    match e with
                    | ErrorInstance message => message
                    | NotAnError => lit "An unknown error occurred."
                    end in
                  Async.ret (setError (Some errorMessage) st)) ;;
       Async.ret (setIsLoading false st))%async
  end.

(** The [parsedResult] memo of the component: nothing while there is no
    (or an empty) analysis text. *)
Definition parsedResult (st : AppState) : option ParsedAnalysis :=
  match analysisResult st with
  | None => None
  | Some text => if isEmpty text then None else parseAnalysisResult text
  end.

End Client.

Arguments videoFile {File} _.
Arguments isLoading {File} _.
Arguments analysisResult {File} _.
Arguments error {File} _.

(** ** The binary encoder (utils/fileUtils)

    [fileToBase64] wraps a [FileReader] in a promise: the [onload] handler
    takes the data URL apart, the [onerror] handler rejects with the event
    it is given. *)

Module FileUtils.

Definition comma : code_unit := 44%N.
Definition colon : code_unit := 58%N.
Definition semicolon : code_unit := 59%N.

(** LineTerminator code points: what the dot of a pattern without the [s]
    flag does not match. *)
Definition isLineTerminator (c : code_unit) : bool :=
  (N.eqb c 10 || N.eqb c 13 || N.eqb c 8232 || N.eqb c 8233)%bool.

(** A lazy star over the dot, followed by the literal [b]: the shortest
    prefix of [s] free of line terminators after which [b] follows. *)
Fixpoint lazyDotUntil (b s : jsstring) : option jsstring :=
  if startsWith s b then Some []
  else match s with
       | [] => None
       | c :: s' =>
           if isLineTerminator c then None
           else option_map (cons c) (lazyDotUntil b s')
       end.

(** The pattern "A, lazy dot star, B" tried at the start of [s] only. *)
Definition dotBetweenHere (a b s : jsstring) : option jsstring :=
  match consume a s with
  | Some rest => lazyDotUntil b rest
  | None => None
  end.

(** [s.match] of the pattern "A, lazy dot star, B": capture group 1 of the
    leftmost match. *)
Fixpoint matchDotBetween (a b s : jsstring) : option jsstring :=
  match dotBetweenHere a b s with
  | Some capture => Some capture
  | None =>
      match s with
      | [] => None
      | _ :: s' => matchDotBetween a b s'
      end
  end.

(** How the [FileReader] ends: [onload] with [reader.result], or
    [onerror]. *)
Inductive ReadEvent :=
| Loaded (result : jsstring)
| ReadError.

Definition invalidDataUrl : jsstring := lit "Invalid data URL format".

Definition noMimeType : jsstring :=
  lit "Could not determine MIME type from data URL".

(** The [onload] handler, as the way it settles the promise.  A match
    always has its group 1, so the test [mimeMatch.length < 2] adds
    nothing to [!mimeMatch]. *)
Definition onload (result : jsstring) : Completion EncodedMedia :=
  let parts := split comma result in
  if negb (Nat.eqb (length parts) 2)
  then Throws (ErrorInstance invalidDataUrl)
  else
    let meta := nth 0 parts [] in
    let data := nth 1 parts [] in
    match matchDotBetween [colon] [semicolon] meta with
    | None => Throws (ErrorInstance noMimeType)
    | Some mimeType => Returns {| base64Data := data; mimeType := mimeType |}
    end.

(** The [onerror] handler rejects with the event, which is no [Error]. *)
Definition onerror : Completion EncodedMedia := Throws NotAnError.

Section Reader.

Variable File : Type.

(** [reader.readAsDataURL(file)], as the event the reader ends with. *)
Variable readAsDataURL : File -> ReadEvent.

Definition fileToBase64 (file : File) : Completion EncodedMedia :=
  match readAsDataURL file with
  | Loaded result => onload result
  | ReadError => onerror
  end.

End Reader.

End FileUtils.

(** ** The rest of the [App] component (src/App.tsx) *)

Section Component.

Variable File : Type.

(** Object URLs and [URL.createObjectURL]. *)
Variable Url : Type.
Variable createObjectURL : File -> Url.

Definition setVideoFile (f : option File) (st : AppState File)
  : AppState File :=
  {| videoFile := f; isLoading := isLoading st;
     analysisResult := analysisResult st; error := error st |}.

(** [handleFileChange], on the four slots of [AppState] and the
    [videoPreviewUrl] slot; [file] is [event.target.files?.[0]]. *)
Definition handleFileChange (file : option File)
    (c : AppState File * option Url) : AppState File * option Url :=
  match file with
  | Some f =>
      let st := setAnalysisResult File None (fst c) in
      let st := setError File None st in
      let st := setVideoFile (Some f) st in
      (st, Some (createObjectURL f))
  | None => c
  end.

(** The two halves of [handleAnalyzeVideo] for a selected file: the
    setter calls made before the [await], and those made once
    [analyzeVideo] has settled.  Each setter replaces one slot of the
    state current at that moment. *)
Definition beforeAwait (st : AppState File) : AppState File :=
  setError File None
    (setAnalysisResult File None (setIsLoading File true st)).

Definition afterAwait (outcome : Completion jsstring) (st : AppState File)
  : AppState File :=
  setIsLoading File false
    (match outcome with
     | Returns result =>
         if startsWith result (lit "Error:")
         then setError File (Some result) st
         else setAnalysisResult File (Some result) st
     | Throws e =>
         setError File
           (Some match e with
                 | ErrorInstance message => message
                 | NotAnError => lit "An unknown error occurred."
                 end) st
     end).

(** What the result section of the page shows. *)
Inductive AnalysisPanel :=
| AnalysisDisplay (analysis : ParsedAnalysis)
| RawText (text : jsstring).

Record ResultSection := {
  loader : bool;
  errorBox : option jsstring;
  analysisPanel : option AnalysisPanel
}.

(** [value && <element>] for a string slot: nothing for [null] and for the
    empty string. *)
Definition whenTruthy {A : Type} (value : option jsstring)
    (element : jsstring -> A) : option A :=
  match value with
  | None => None
  | Some v => if isEmpty v then None else Some (element v)
  end.

Definition renderResultSection (st : AppState File) : ResultSection :=
  {| loader := isLoading st;
     errorBox := whenTruthy (error st) (fun e => e);
     analysisPanel :=
       whenTruthy (analysisResult st)
         (fun text =>
            match parsedResult File st with
            | Some analysis => AnalysisDisplay analysis
            | None => RawText text
            end) |}.

(** [disabled={!videoFile || isLoading}] of the button. *)
Definition buttonDisabled (st : AppState File) : bool :=
  match videoFile st with
  | None => true
  | Some _ => isLoading st
  end.

End Component.

(** ** Predicates used in the statements *)

(** A string with no white space at either end. *)
Definition isTrimmed (s : jsstring) : bool :=
  match s with
  | [] => true
  | c :: _ => negb (isWhiteSpace c) && negb (isWhiteSpace (last s c))
  end.

(** A string without line terminators: what a star over the dot can
    match. *)
Definition isDotText (s : jsstring) : bool :=
  forallb (fun c => negb (FileUtils.isLineTerminator c)) s.

(** How often the code unit [c] occurs in [s]. *)
Definition countUnit (c : code_unit) (s : jsstring) : nat :=
  length (filter (N.eqb c) s).

(** ** Concrete texts and environments used below *)

Definition scenarioText : jsstring :=
  lit "GLOBAL COHESION BLOCK" ++ newline ::
  lit "Characters: a dog" ++ newline ::
  lit "DETAILED SCENE BREAKDOWN TABLE" ++ newline ::
  lit "| A | B | C |" ++ newline ::
  lit "|---|---|---|" ++ newline ::
  lit "| 00:00-00:05 | Dog runs | Wide shot |" ++ newline ::
  lit "TECHNICAL STYLE ANALYSIS" ++ newline ::
  lit "Documentary style.".

(** The markers with an early mention of the third one. *)
Definition earlyMentionPrefix : jsstring :=
  lit "TECHNICAL STYLE ANALYSIS" ++ lit " follows. ".

Definition earlyMentionText : jsstring :=
  earlyMentionPrefix ++ GLOBAL_COHESION_BLOCK ++ lit " g "
  ++ DETAILED_SCENE_BREAKDOWN_TABLE ++ lit " t "
  ++ TECHNICAL_STYLE_ANALYSIS ++ lit " s ".

(** A table whose second data line has two cells and whose fourth has
    four. *)
Definition raggedTableText : jsstring :=
  lit "DETAILED SCENE BREAKDOWN TABLE" ++ newline ::
  lit "| A | B | C |" ++ newline ::
  lit "|---|---|---|" ++ newline ::
  lit "| 00:00-00:05 | Dog runs | Wide shot |" ++ newline ::
  lit "| 00:05-00:09 | Dog sits |" ++ newline ::
  lit "| 00:09-00:12 | Dog barks | Close-up |" ++ newline ::
  lit "| 00:12-00:20 | Dog | sleeps | Static |" ++ newline ::
  lit "TECHNICAL STYLE ANALYSIS".

(** Environments of the client: one file, of the given encoded form, and
    a remote model with the given behaviour. *)
Definition mp4 : EncodedMedia :=
  {| base64Data := lit "AAAAIGZ0eXBpc29t"; mimeType := lit "video/mp4" |}.

Definition png : EncodedMedia :=
  {| base64Data := lit "iVBORw0KGgo"; mimeType := lit "image/png" |}.

Definition samplePrompt : jsstring :=
  lit "You are a video reverse-engineering assistant.".

(** A remote call that rejects with a value that is not an [Error]. *)
Definition rejectsWithNonError
  : GenerateContentParameters -> Completion jsstring :=
  fun _ => Throws NotAnError.

(** A remote model whose answer itself begins with "Error:". *)
Definition answersErrorText
  : GenerateContentParameters -> Completion jsstring :=
  fun _ => Returns (lit "Error: none found. GLOBAL COHESION BLOCK").

Definition idle (file : unit) : AppState unit :=
  {| videoFile := Some file; isLoading := false;
     analysisResult := None; error := None |}.

(** Data URLs as a [FileReader] produces them. *)
Definition mp4DataUrl : jsstring := lit "data:video/mp4;base64,AAAAIGZ0eXBpc29t".

Definition pngDataUrl : jsstring := lit "data:image/png;base64,iVBORw0KGgo".

(** The model's answers used below. *)
Definition answers (text : jsstring)
  : GenerateContentParameters -> Completion jsstring :=
  fun _ => Returns text.

(** The component before any file is chosen. *)
Definition initial : AppState unit :=
  {| videoFile := None; isLoading := false;
     analysisResult := None; error := None |}.

(** ** Facts about the string primitives *)

Module JsFacts.

Lemma startsWith_app (p r : jsstring) : startsWith (p ++ r) p = true.
Proof.
  induction p as [|c p IH]; simpl; [reflexivity|].
  now rewrite N.eqb_refl, IH.
Qed.

Lemma startsWith_inv (p s : jsstring) :
  startsWith s p = true -> exists r, s = p ++ r.
Proof.
  revert s; induction p as [|c p IH]; intros s H; simpl in *.
  - now exists s.
  - destruct s as [|d s]; [discriminate|].
    apply andb_true_iff in H as [Hc Hp].
    apply N.eqb_eq in Hc; subst d.
    destruct (IH _ Hp) as [r ->]. now exists r.
Qed.

Lemma consume_startsWith (p s : jsstring) :
  consume p s = None <-> startsWith s p = false.
Proof.
  revert s; induction p as [|c p IH]; intros s; simpl.
  - split; discriminate.
  - destruct s as [|d s]; [tauto|].
    destruct (N.eqb c d); simpl; [apply IH | tauto].
Qed.

Lemma consume_app (p r : jsstring) : consume p (p ++ r) = Some r.
Proof.
  induction p as [|c p IH]; simpl; [reflexivity|].
  now rewrite N.eqb_refl.
Qed.

Lemma consume_inv (p s r : jsstring) : consume p s = Some r -> s = p ++ r.
Proof.
  revert s; induction p as [|c p IH]; intros s H; simpl in *.
  - now inversion H.
  - destruct s as [|d s]; [discriminate|].
    destruct (N.eqb_spec c d); [|discriminate].
    subst d. f_equal. now apply IH.
Qed.

(** *** Occurrences *)

Lemma occursBefore_head (m : jsstring) (n : nat) (s : jsstring) :
  occursBefore m (S n) s = false -> startsWith s m = false.
Proof. simpl. intros H. now apply orb_false_iff in H. Qed.

Lemma occursBefore_tail (m : jsstring) (n : nat) (c : code_unit) (s : jsstring) :
  occursBefore m (S n) (c :: s) = false -> occursBefore m n s = false.
Proof. simpl. intros H. now apply orb_false_iff in H. Qed.

Lemma occursBefore_le (m : jsstring) (n n' : nat) (s : jsstring) :
  n' <= n -> occursBefore m n s = false -> occursBefore m n' s = false.
Proof.
  revert n' s; induction n as [|n IH]; intros n' s Hle H.
  - now replace n' with 0 by lia.
  - destruct n' as [|n']; [reflexivity|].
    simpl in *. apply orb_false_iff in H as [H1 H2]. rewrite H1. simpl.
    destruct s as [|c s]; [reflexivity|]. apply IH; [lia | exact H2].
Qed.

(** Position [i] of [s] starts no occurrence of [m] when no position up to
    [n > i] does. *)
Lemma occursBefore_skipn (m : jsstring) (n i : nat) (s : jsstring) :
  i < n -> occursBefore m n s = false -> startsWith (skipn i s) m = false.
Proof.
  revert i s; induction n as [|n IH]; intros i s Hi H; [lia|].
  destruct i as [|i]; simpl skipn.
  - exact (occursBefore_head _ _ _ H).
  - destruct s as [|c s].
    + exact (occursBefore_head _ _ _ H).
    + apply IH; [lia|]. exact (occursBefore_tail _ _ _ _ H).
Qed.

(** [occursBefore] decides that [m] occurs in [s] at a position below
    [n]. *)
Lemma occursBefore_spec (m : jsstring) (n : nat) (s : jsstring) :
  occursBefore m n s = true <->
  exists l r, s = l ++ m ++ r /\ length l < n.
Proof.
  revert s; induction n as [|n IH]; intros s; simpl.
  - split; [discriminate | intros (l & r & _ & H); lia].
  - rewrite orb_true_iff. split.
    + intros [H | H].
      * apply startsWith_inv in H as [r ->]. exists [], r. simpl.
        split; [reflexivity | lia].
      * destruct s as [|c s]; [discriminate|].
        apply IH in H as (l & r & -> & Hl).
        exists (c :: l), r. simpl. split; [reflexivity | lia].
    + intros ([|c l] & r & -> & Hl).
      * left. simpl app. apply startsWith_app.
      * right. simpl. apply IH. exists l, r. simpl in Hl.
        split; [reflexivity | lia].
Qed.

Lemma includes_spec (s m : jsstring) :
  includes s m = true <-> exists l r, s = l ++ m ++ r.
Proof.
  unfold includes. rewrite occursBefore_spec. split.
  - intros (l & r & H & _). now exists l, r.
  - intros (l & r & ->). exists l, r. split; [reflexivity|].
    rewrite length_app. lia.
Qed.

Lemma includes_tail (c : code_unit) (s m : jsstring) :
  includes (c :: s) m = false -> includes s m = false.
Proof. unfold includes. apply occursBefore_tail. Qed.

Lemma includes_head (s m : jsstring) :
  includes s m = false -> startsWith s m = false.
Proof. unfold includes. apply occursBefore_head. Qed.

(** *** The patterns *)

Lemma lazyUntil_eq (b s : jsstring) :
  lazyUntil b s =
  if startsWith s b then Some []
  else match s with
       | [] => None
       | c :: s' => option_map (cons c) (lazyUntil b s')
       end.
Proof. destruct s; reflexivity. Qed.

Lemma matchBetween_eq (a b s : jsstring) :
  matchBetween a b s =
  match betweenHere a b s with
  | Some capture => Some capture
  | None => match s with [] => None | _ :: s' => matchBetween a b s' end
  end.
Proof. destruct s; reflexivity. Qed.

Lemma matchAfter_eq (a s : jsstring) :
  matchAfter a s =
  match consume a s with
  | Some rest => Some rest
  | None => match s with [] => None | _ :: s' => matchAfter a s' end
  end.
Proof. destruct s; reflexivity. Qed.

Lemma lazyUntil_first (b g r : jsstring) :
  occursBefore b (length g) (g ++ b ++ r) = false ->
  lazyUntil b (g ++ b ++ r) = Some g.
Proof.
  induction g as [|c g IH]; intros H.
  - simpl app. now rewrite lazyUntil_eq, startsWith_app.
  - change ((c :: g) ++ b ++ r) with (c :: (g ++ b ++ r)) in *.
    simpl length in H.
    rewrite lazyUntil_eq, (occursBefore_head _ _ _ H).
    rewrite IH; [reflexivity|]. exact (occursBefore_tail _ _ _ _ H).
Qed.

Lemma matchBetween_first (a b pre g r : jsstring) :
  occursBefore a (length pre) (pre ++ a ++ g ++ b ++ r) = false ->
  occursBefore b (length g) (g ++ b ++ r) = false ->
  matchBetween a b (pre ++ a ++ g ++ b ++ r) = Some g.
Proof.
  intros Ha Hb. induction pre as [|c pre IH].
  - simpl app. rewrite matchBetween_eq. unfold betweenHere.
    now rewrite consume_app, lazyUntil_first.
  - change ((c :: pre) ++ a ++ g ++ b ++ r)
      with (c :: (pre ++ a ++ g ++ b ++ r)) in *.
    simpl length in Ha. rewrite matchBetween_eq. unfold betweenHere.
    pose proof (occursBefore_head _ _ _ Ha) as Hh.
    apply consume_startsWith in Hh. rewrite Hh.
    apply IH. exact (occursBefore_tail _ _ _ _ Ha).
Qed.

Lemma matchAfter_first (a pre r : jsstring) :
  occursBefore a (length pre) (pre ++ a ++ r) = false ->
  matchAfter a (pre ++ a ++ r) = Some r.
Proof.
  intros Ha. induction pre as [|c pre IH].
  - simpl app. now rewrite matchAfter_eq, consume_app.
  - change ((c :: pre) ++ a ++ r) with (c :: (pre ++ a ++ r)) in *.
    simpl length in Ha. rewrite matchAfter_eq.
    pose proof (occursBefore_head _ _ _ Ha) as Hh.
    apply consume_startsWith in Hh. rewrite Hh.
    apply IH. exact (occursBefore_tail _ _ _ _ Ha).
Qed.

Lemma matchBetween_absent (a b s : jsstring) :
  includes s a = false -> matchBetween a b s = None.
Proof.
  induction s as [|c s IH]; intros H.
  - apply includes_head, consume_startsWith in H.
    simpl. unfold betweenHere. now rewrite H.
  - pose proof (includes_head _ _ H) as Hh.
    apply consume_startsWith in Hh.
    simpl. unfold betweenHere. rewrite Hh.
    apply IH. exact (includes_tail _ _ _ H).
Qed.

Lemma matchAfter_absent (a s : jsstring) :
  includes s a = false -> matchAfter a s = None.
Proof.
  induction s as [|c s IH]; intros H.
  - apply includes_head, consume_startsWith in H. simpl. now rewrite H.
  - pose proof (includes_head _ _ H) as Hh.
    apply consume_startsWith in Hh.
    simpl. rewrite Hh. apply IH. exact (includes_tail _ _ _ H).
Qed.

(** *** Trimming *)

Lemma trimStart_blank (s : jsstring) : isBlank s = true -> trimStart s = [].
Proof.
  induction s as [|c s IH]; simpl; [reflexivity|].
  intros H. apply andb_true_iff in H as [Hc Hs]. now rewrite Hc, IH.
Qed.

Lemma trimStart_cases (s : jsstring) :
  (trimStart s = [] /\ isBlank s = true)
  \/ exists c t, trimStart s = c :: t /\ isWhiteSpace c = false.
Proof.
  induction s as [|c s IH]; simpl; [now left|].
  destruct (isWhiteSpace c) eqn:E; simpl.
  - exact IH.
  - right. now exists c, s.
Qed.

Lemma isBlank_rev (s : jsstring) : isBlank (rev s) = isBlank s.
Proof.
  unfold isBlank. induction s as [|c s IH]; simpl; [reflexivity|].
  rewrite forallb_app, IH. simpl. rewrite andb_true_r. apply andb_comm.
Qed.

Lemma trim_blank (s : jsstring) : isBlank s = true -> trim s = [].
Proof.
  intros H. unfold trim, trimEnd. now rewrite (trimStart_blank _ H).
Qed.

Lemma trim_nonblank (s : jsstring) : isBlank s = false -> trim s <> [].
Proof.
  intros H E. unfold trim, trimEnd in E.
  destruct (trimStart_cases s) as [[_ Hb] | (c & t & Ht & Hc)]; [congruence|].
  rewrite Ht in E.
  apply (f_equal (@rev code_unit)) in E. rewrite rev_involutive in E.
  simpl rev at 2 in E.
  destruct (trimStart_cases (rev (c :: t))) as [[_ Hb] | (d & u & Hu & _)].
  - rewrite isBlank_rev in Hb. simpl in Hb. now rewrite Hc in Hb.
  - congruence.
Qed.

(** *** Splitting *)

Lemma split_eq (sep c : code_unit) (s : jsstring) :
  split sep (c :: s) =
  if N.eqb c sep then [] :: split sep s
  else match split sep s with
       | piece :: pieces => (c :: piece) :: pieces
       | [] => [[c]]
       end.
Proof. reflexivity. Qed.

Lemma split_piece (sep : code_unit) (l rest : jsstring) :
  lacks sep l = true ->
  split sep (l ++ sep :: rest) = l :: split sep rest.
Proof.
  unfold lacks. induction l as [|c l IH]; intros H.
  - simpl. now rewrite N.eqb_refl.
  - simpl in H. apply negb_true_iff, orb_false_iff in H as [Hc Hl].
    rewrite <- app_comm_cons, split_eq.
    rewrite N.eqb_sym in Hc. rewrite Hc, IH; [reflexivity|].
    now apply negb_true_iff.
Qed.

Lemma split_last (sep : code_unit) (l : jsstring) :
  lacks sep l = true -> split sep l = [l].
Proof.
  unfold lacks. induction l as [|c l IH]; intros H; [reflexivity|].
  simpl in H. apply negb_true_iff, orb_false_iff in H as [Hc Hl].
  rewrite split_eq. rewrite N.eqb_sym in Hc. rewrite Hc, IH; [reflexivity|].
  now apply negb_true_iff.
Qed.

Lemma split_join (sep : code_unit) (l : jsstring) (ls : list jsstring) :
  forallb (lacks sep) (l :: ls) = true ->
  split sep (join sep (l :: ls)) = l :: ls.
Proof.
  revert l; induction ls as [|l' ls IH]; intros l H.
  - simpl in *. apply split_last. now rewrite andb_true_r in H.
  - change (join sep (l :: l' :: ls)) with (l ++ sep :: join sep (l' :: ls)).
    change (forallb (lacks sep) (l :: l' :: ls))
      with (lacks sep l && forallb (lacks sep) (l' :: ls)) in H.
    apply andb_true_iff in H as [Hl Hls].
    now rewrite split_piece, IH.
Qed.

End JsFacts.

(** ** The response parser *)

Module ParserFacts.

Lemma cells_nonempty (row cell : jsstring) :
  In cell (cells row) -> cell <> [].
Proof.
  unfold cells. intros H E. apply filter_In in H as [_ H].
  now rewrite E in H.
Qed.

Lemma rowOfLine_cells (line : jsstring) (row : TableRow) :
  rowOfLine line = Some row <->
  cells line = [timestamp row; action row; notes row].
Proof.
  unfold rowOfLine. destruct row as [c0 c1 c2]; simpl.
  destruct (cells line) as [|x0 [|x1 [|x2 [|x3 xs]]]];
    split; intros H; try discriminate; now inversion H.
Qed.

Lemma rowOfLine_none (line : jsstring) :
  length (cells line) <> 3 <-> rowOfLine line = None.
Proof.
  unfold rowOfLine.
  destruct (cells line) as [|x0 [|x1 [|x2 [|x3 xs]]]]; simpl;
    split; intros H; try reflexivity; try discriminate; try lia.
Qed.

Lemma rowsOfLines_cons (line : jsstring) (lines : list jsstring) :
  rowsOfLines (line :: lines) =
  match rowOfLine line with
  | Some r => r :: rowsOfLines lines
  | None => rowsOfLines lines
  end.
Proof. reflexivity. Qed.

Lemma rowsOfLines_app (pre post : list jsstring) :
  rowsOfLines (pre ++ post) = rowsOfLines pre ++ rowsOfLines post.
Proof.
  induction pre as [|l pre IH]; [reflexivity|].
  rewrite <- app_comm_cons, !rowsOfLines_cons, IH.
  now destruct (rowOfLine l).
Qed.

Lemma rowsOfLines_In (lines : list jsstring) (row : TableRow) :
  In row (rowsOfLines lines) <->
  exists line, In line lines /\ rowOfLine line = Some row.
Proof.
  induction lines as [|l lines IH].
  - simpl. split; [tauto | now intros (? & [] & _)].
  - rewrite rowsOfLines_cons. split.
    + destruct (rowOfLine l) eqn:E.
      * intros [->|H]; [exists l; simpl; auto|].
        apply IH in H as (line & Hin & Hr). exists line; simpl; auto.
      * intros H. apply IH in H as (line & Hin & Hr). exists line; simpl; auto.
    + intros (line & [->|Hin] & Hr).
      * rewrite Hr. now left.
      * assert (In row (rowsOfLines lines)) by (apply IH; eauto).
        destruct (rowOfLine l); simpl; auto.
Qed.

Lemma rowsOfLines_valid (lines : list jsstring) (rows : list TableRow) :
  Forall2 (fun line row => cells line = [timestamp row; action row; notes row])
          lines rows ->
  rowsOfLines lines = rows.
Proof.
  induction 1 as [|l r lines rows Hl _ IH]; [reflexivity|].
  apply rowOfLine_cells in Hl. now rewrite rowsOfLines_cons, Hl, IH.
Qed.

(** The result is the three extracted fields, unless all are empty. *)
Lemma parse_cases (text : jsstring) :
  (parseAnalysisResult text = None
   /\ globalCohesionBlockOf text = []
   /\ sceneBreakdownOf text = []
   /\ technicalAnalysisOf text = [])
  \/ (parseAnalysisResult text =
        Some {| globalCohesionBlock := globalCohesionBlockOf text;
                sceneBreakdown := sceneBreakdownOf text;
                technicalAnalysis := technicalAnalysisOf text |}
      /\ ~ (globalCohesionBlockOf text = []
            /\ sceneBreakdownOf text = []
            /\ technicalAnalysisOf text = [])).
Proof.
  unfold parseAnalysisResult.
  destruct (globalCohesionBlockOf text) as [|c g];
    destruct (sceneBreakdownOf text) as [|r rows];
    destruct (technicalAnalysisOf text) as [|d t]; simpl;
    first [ left; now repeat split
          | right; split; [reflexivity | intros (? & ? & ?); discriminate] ].
Qed.

Lemma parse_some (text : jsstring) (r : ParsedAnalysis) :
  parseAnalysisResult text = Some r ->
  globalCohesionBlock r = globalCohesionBlockOf text
  /\ sceneBreakdown r = sceneBreakdownOf text
  /\ technicalAnalysis r = technicalAnalysisOf text.
Proof.
  destruct (parse_cases text) as [[E _] | [E _]]; rewrite E; intros H;
    [discriminate | now inversion H].
Qed.

End ParserFacts.

Import JsFacts ParserFacts.

(** C4: the scenario of the specification.  The exact text of the
    scenario parses to the cohesion block "Characters: a dog", the single
    row (00:00-00:05, Dog runs, Wide shot) and the technical analysis
    "Documentary style.". *)
Theorem parse_scenario :
  parseAnalysisResult scenarioText =
  Some {| globalCohesionBlock := lit "Characters: a dog";
          sceneBreakdown :=
            [ {| timestamp := lit "00:00-00:05";
                 action := lit "Dog runs";
                 notes := lit "Wide shot" |} ];
          technicalAnalysis := lit "Documentary style." |}.
Proof. vm_compute. reflexivity. Qed.

(** C2, as stated, fails: [earlyMentionText] contains the three markers in
    order, with non-blank text between the first two and after the third,
    yet the technical analysis of the result is not the trimmed text after
    that third marker: the pattern matches the earlier mention of
    "TECHNICAL STYLE ANALYSIS". *)
Lemma parse_early_mention :
  earlyMentionText =
    earlyMentionPrefix ++ GLOBAL_COHESION_BLOCK ++ lit " g "
    ++ DETAILED_SCENE_BREAKDOWN_TABLE ++ lit " t "
    ++ TECHNICAL_STYLE_ANALYSIS ++ lit " s "
  /\ isBlank (lit " g ") = false
  /\ isBlank (lit " s ") = false
  /\ exists r, parseAnalysisResult earlyMentionText = Some r
               /\ globalCohesionBlock r = trim (lit " g ")
               /\ technicalAnalysis r <> trim (lit " s ").
Proof.
  split; [reflexivity|]. split; [reflexivity|]. split; [reflexivity|].
  destruct (parse_cases earlyMentionText) as [(_ & E & _) | [E _]].
  - vm_compute in E. discriminate.
  - eexists. split; [exact E|]. simpl. split.
    + vm_compute. reflexivity.
    + vm_compute. discriminate.
Qed.

(** C2, amended: for every text [a ++ M1 ++ g ++ M2 ++ t ++ M3 ++ s], with
    the three markers in order, in which no occurrence of the first marker
    starts before the one shown, no occurrence of the second starts inside
    [g], and no occurrence of the third starts before the one shown, and in
    which [g] and [s] are not blank, the result exists, its cohesion block
    is [trim g], its technical analysis is [trim s], and both are
    non-empty. *)
Theorem parse_recovers_blocks (a g t s : jsstring) :
  let text :=
    a ++ GLOBAL_COHESION_BLOCK ++ g ++ DETAILED_SCENE_BREAKDOWN_TABLE
      ++ t ++ TECHNICAL_STYLE_ANALYSIS ++ s in
  occursBefore GLOBAL_COHESION_BLOCK (length a) text = false ->
  occursBefore DETAILED_SCENE_BREAKDOWN_TABLE (length g)
    (g ++ DETAILED_SCENE_BREAKDOWN_TABLE ++ t ++ TECHNICAL_STYLE_ANALYSIS ++ s)
    = false ->
  occursBefore TECHNICAL_STYLE_ANALYSIS
    (length (a ++ GLOBAL_COHESION_BLOCK ++ g
               ++ DETAILED_SCENE_BREAKDOWN_TABLE ++ t)) text = false ->
  isBlank g = false ->
  isBlank s = false ->
  exists r,
    parseAnalysisResult text = Some r
    /\ globalCohesionBlock r = trim g
    /\ technicalAnalysis r = trim s
    /\ globalCohesionBlock r <> []
    /\ technicalAnalysis r <> [].
Proof.
  intros text H1 H2 H3 Hg Hs.
  assert (Eg : globalCohesionBlockOf text = trim g).
  { unfold globalCohesionBlockOf, text.
    now rewrite matchBetween_first. }
  assert (Es : technicalAnalysisOf text = trim s).
  { unfold technicalAnalysisOf.
    replace text
      with ((a ++ GLOBAL_COHESION_BLOCK ++ g
               ++ DETAILED_SCENE_BREAKDOWN_TABLE ++ t)
              ++ TECHNICAL_STYLE_ANALYSIS ++ s) in *
      by (unfold text; now rewrite <- !app_assoc).
    now rewrite matchAfter_first. }
  pose proof (trim_nonblank _ Hg) as Ng.
  pose proof (trim_nonblank _ Hs) as Ns.
  destruct (parse_cases text) as [(_ & E & _) | [E _]]; [congruence|].
  eexists. split; [exact E|]. simpl. rewrite Eg, Es. now repeat split.
Qed.

Lemma parse_recovers_blocks_scenario :
  exists r,
    parseAnalysisResult scenarioText = Some r
    /\ globalCohesionBlock r = trim (newline :: lit "Characters: a dog" ++ [newline])
    /\ technicalAnalysis r = trim (newline :: lit "Documentary style.")
    /\ globalCohesionBlock r <> []
    /\ technicalAnalysis r <> [].
Proof.
  apply (parse_recovers_blocks []
           (newline :: lit "Characters: a dog" ++ [newline])
           (newline :: lit "| A | B | C |" ++ newline ::
            lit "|---|---|---|" ++ newline ::
            lit "| 00:00-00:05 | Dog runs | Wide shot |" ++ [newline])
           (newline :: lit "Documentary style."));
    vm_compute; reflexivity.
Defined.

(** C3: when the table block (the trimmed text captured between the second
    and the third marker) is a header line, a separator line and then N
    lines of exactly three non-empty trimmed cells each, the scene
    breakdown is exactly the N rows of those cells, in the order of the
    lines.  The result exists as soon as N is positive. *)
Theorem table_rows_in_order
    (text header separator : jsstring)
    (lines : list jsstring) (rows : list TableRow) :
  tableStringOf text = join newline (header :: separator :: lines) ->
  forallb (lacks newline) (header :: separator :: lines) = true ->
  Forall2 (fun line row => cells line = [timestamp row; action row; notes row])
          lines rows ->
  sceneBreakdownOf text = rows
  /\ length rows = length lines
  /\ (lines <> [] ->
      exists r, parseAnalysisResult text = Some r /\ sceneBreakdown r = rows)
  /\ (forall r, parseAnalysisResult text = Some r -> sceneBreakdown r = rows).
Proof.
  intros Htable Hlines Hrows.
  assert (E : sceneBreakdownOf text = rows).
  { unfold sceneBreakdownOf. rewrite Htable, split_join by exact Hlines.
    simpl skipn. now apply rowsOfLines_valid. }
  split; [exact E|]. split; [symmetry; exact (Forall2_length Hrows)|]. split.
  - intros Hne.
    destruct (parse_cases text) as [(_ & _ & Hnil & _) | [Hr _]].
    + rewrite E in Hnil. rewrite Hnil in Hrows. inversion Hrows. congruence.
    + eexists. split; [exact Hr|]. exact E.
  - intros r Hr. apply parse_some in Hr as (_ & -> & _). exact E.
Qed.

Lemma table_rows_in_order_scenario :
  sceneBreakdownOf scenarioText =
    [ {| timestamp := lit "00:00-00:05";
         action := lit "Dog runs";
         notes := lit "Wide shot" |} ].
Proof.
  apply (table_rows_in_order scenarioText
           (lit "| A | B | C |") (lit "|---|---|---|")
           [lit "| 00:00-00:05 | Dog runs | Wide shot |"]
           [ {| timestamp := lit "00:00-00:05";
                action := lit "Dog runs";
                notes := lit "Wide shot" |} ]).
  - vm_compute. reflexivity.
  - vm_compute. reflexivity.
  - constructor; [vm_compute; reflexivity | constructor].
Defined.

(** C5: a line of the table block after the first two whose trimmed,
    non-empty cells are fewer or more than three yields no row; the scene
    breakdown is the rows of the lines before it followed by the rows of
    the lines after it, and an absent result can only come from three empty
    fields, not from an error. *)
Theorem malformed_row_dropped
    (text l1 l2 : jsstring) (before : list jsstring) (bad : jsstring)
    (after : list jsstring) :
  split newline (tableStringOf text) = l1 :: l2 :: before ++ bad :: after ->
  length (cells bad) <> 3 ->
  rowOfLine bad = None
  /\ sceneBreakdownOf text = rowsOfLines before ++ rowsOfLines after
  /\ (forall r, parseAnalysisResult text = Some r ->
        sceneBreakdown r = rowsOfLines before ++ rowsOfLines after)
  /\ (parseAnalysisResult text = None ->
        globalCohesionBlockOf text = []
        /\ rowsOfLines before ++ rowsOfLines after = []
        /\ technicalAnalysisOf text = []).
Proof.
  intros Hsplit Hbad.
  apply rowOfLine_none in Hbad.
  assert (E : sceneBreakdownOf text = rowsOfLines before ++ rowsOfLines after).
  { unfold sceneBreakdownOf. rewrite Hsplit. simpl skipn.
    now rewrite rowsOfLines_app, rowsOfLines_cons, Hbad. }
  split; [exact Hbad|]. split; [exact E|]. split.
  - intros r Hr. apply parse_some in Hr as (_ & -> & _). exact E.
  - intros Hnone.
    destruct (parse_cases text) as [(_ & Hg & Hrows & Ht) | [Hr _]];
      [|congruence].
    rewrite E in Hrows. now repeat split.
Qed.

Lemma malformed_row_dropped_ragged :
  sceneBreakdownOf raggedTableText =
    [ {| timestamp := lit "00:00-00:05";
         action := lit "Dog runs";
         notes := lit "Wide shot" |} ]
    ++ [ {| timestamp := lit "00:09-00:12";
            action := lit "Dog barks";
            notes := lit "Close-up" |} ].
Proof.
  apply (malformed_row_dropped raggedTableText
           (lit "| A | B | C |") (lit "|---|---|---|")
           [lit "| 00:00-00:05 | Dog runs | Wide shot |"]
           (lit "| 00:05-00:09 | Dog sits |")
           [lit "| 00:09-00:12 | Dog barks | Close-up |";
            lit "| 00:12-00:20 | Dog | sleeps | Static |"]).
  - vm_compute. reflexivity.
  - vm_compute. discriminate.
Defined.

(** C6: the result is absent exactly when the extracted cohesion block is
    empty, the extracted scene breakdown has no row and the extracted
    technical analysis is empty; in every other case it is the record of
    the three extracted fields, whichever of them are empty.  In
    particular a text in which none of the three markers occurs has an
    absent result. *)
Theorem parse_absent_when_all_empty (text : jsstring) :
  (globalCohesionBlockOf text = []
   /\ sceneBreakdownOf text = []
   /\ technicalAnalysisOf text = [] ->
   parseAnalysisResult text = None)
  /\ (~ (globalCohesionBlockOf text = []
         /\ sceneBreakdownOf text = []
         /\ technicalAnalysisOf text = []) ->
      parseAnalysisResult text =
        Some {| globalCohesionBlock := globalCohesionBlockOf text;
                sceneBreakdown := sceneBreakdownOf text;
                technicalAnalysis := technicalAnalysisOf text |})
  /\ (includes text GLOBAL_COHESION_BLOCK = false ->
      includes text DETAILED_SCENE_BREAKDOWN_TABLE = false ->
      includes text TECHNICAL_STYLE_ANALYSIS = false ->
      parseAnalysisResult text = None).
Proof.
  destruct (parse_cases text) as [(E & Hg & Hr & Ht) | [E Hn]].
  - split; [intros _; exact E|]. split; [intros H; now destruct H|].
    intros _ _ _. exact E.
  - split; [intros H; now destruct Hn|]. split; [intros _; exact E|].
    intros H1 H2 H3. destruct Hn.
    unfold globalCohesionBlockOf, sceneBreakdownOf, tableStringOf,
      technicalAnalysisOf.
    rewrite (matchBetween_absent _ _ _ H1), (matchBetween_absent _ _ _ H2),
      (matchAfter_absent _ _ H3).
    now repeat split.
Qed.

Lemma parse_absent_without_markers :
  parseAnalysisResult (lit "The video shows a dog running in a park.") = None.
Proof.
  apply (proj2 (proj2 (parse_absent_when_all_empty
                         (lit "The video shows a dog running in a park."))));
    vm_compute; reflexivity.
Defined.

(** C7: the first two lines of the trimmed table block are discarded by
    position, whatever they contain: the scene breakdown is the rows of the
    lines from the third on, so every row comes from such a line; and a
    table block of fewer than two lines gives an empty scene breakdown, the
    parser still returning normally. *)
Theorem table_skips_two_lines (text : jsstring) :
  (forall l1 l2 rest,
     split newline (tableStringOf text) = l1 :: l2 :: rest ->
     sceneBreakdownOf text = rowsOfLines rest
     /\ (forall row, In row (sceneBreakdownOf text) ->
           exists line, In line rest /\ rowOfLine line = Some row)
     /\ (forall r, parseAnalysisResult text = Some r ->
           sceneBreakdown r = rowsOfLines rest))
  /\ (length (split newline (tableStringOf text)) < 2 ->
      sceneBreakdownOf text = []
      /\ (forall r, parseAnalysisResult text = Some r -> sceneBreakdown r = [])
      /\ (parseAnalysisResult text = None ->
            globalCohesionBlockOf text = [] /\ technicalAnalysisOf text = [])).
Proof.
  split.
  - intros l1 l2 rest Hsplit.
    assert (E : sceneBreakdownOf text = rowsOfLines rest).
    { unfold sceneBreakdownOf. now rewrite Hsplit. }
    split; [exact E|]. split.
    + intros row Hin. rewrite E in Hin. now apply rowsOfLines_In.
    + intros r Hr. apply parse_some in Hr as (_ & -> & _). exact E.
  - intros Hshort.
    assert (E : sceneBreakdownOf text = []).
    { unfold sceneBreakdownOf.
      destruct (split newline (tableStringOf text)) as [|l1 [|l2 rest]];
        [reflexivity | reflexivity | simpl in Hshort; lia]. }
    split; [exact E|]. split.
    + intros r Hr. apply parse_some in Hr as (_ & -> & _). exact E.
    + intros Hnone.
      destruct (parse_cases text) as [(_ & Hg & _ & Ht) | [Hr _]];
        [now split | congruence].
Qed.

(** In the scenario the header line and the separator line have three
    cells each, and are discarded all the same. *)
Lemma table_skips_two_lines_scenario :
  rowOfLine (lit "| A | B | C |") <> None
  /\ rowOfLine (lit "|---|---|---|") <> None
  /\ sceneBreakdownOf scenarioText =
       rowsOfLines [lit "| 00:00-00:05 | Dog runs | Wide shot |"].
Proof.
  split; [vm_compute; discriminate|]. split; [vm_compute; discriminate|].
  apply (proj1 (table_skips_two_lines scenarioText)
           (lit "| A | B | C |") (lit "|---|---|---|")
           [lit "| 00:00-00:05 | Dog runs | Wide shot |"]).
  vm_compute. reflexivity.
Defined.

(** C9: every row of the scene breakdown of a returned result has a
    non-empty timestamp, a non-empty action and non-empty notes. *)
Theorem rows_have_nonempty_cells
    (text : jsstring) (r : ParsedAnalysis) (row : TableRow) :
  parseAnalysisResult text = Some r ->
  In row (sceneBreakdown r) ->
  timestamp row <> [] /\ action row <> [] /\ notes row <> [].
Proof.
  intros Hr Hin. apply parse_some in Hr as (_ & Hrows & _).
  rewrite Hrows in Hin. unfold sceneBreakdownOf in Hin.
  apply rowsOfLines_In in Hin as (line & _ & Hline).
  apply rowOfLine_cells in Hline.
  repeat split; apply (cells_nonempty line); rewrite Hline; simpl; auto.
Qed.

Lemma rows_have_nonempty_cells_scenario :
  lit "00:00-00:05" <> [] /\ lit "Dog runs" <> [] /\ lit "Wide shot" <> [].
Proof.
  apply (rows_have_nonempty_cells scenarioText
           {| globalCohesionBlock := lit "Characters: a dog";
              sceneBreakdown :=
                [ {| timestamp := lit "00:00-00:05";
                     action := lit "Dog runs";
                     notes := lit "Wide shot" |} ];
              technicalAnalysis := lit "Documentary style." |}
           {| timestamp := lit "00:00-00:05";
              action := lit "Dog runs";
              notes := lit "Wide shot" |}).
  - vm_compute. reflexivity.
  - simpl. left. reflexivity.
Defined.

(** ** The analysis client and its caller *)

Section ClientFacts.

Variable File : Type.
Variable fileToBase64 : File -> Completion EncodedMedia.
Variable generateContent : GenerateContentParameters -> Completion jsstring.
Variable PROMPT : jsstring.

Local Abbreviation analyze :=
  (analyzeVideo File fileToBase64 generateContent PROMPT).
Local Abbreviation handle :=
  (handleAnalyzeVideo File fileToBase64 generateContent PROMPT).
Local Abbreviation requestOf := (requestOf PROMPT).

(** Every path through [analyzeVideo]. *)
Lemma analyzeVideo_paths (file : File) (sent : list GenerateContentParameters) :
  analyze file sent =
  match fileToBase64 file with
  | Throws e => (Returns (caught e), sent)
  | Returns media =>
      if startsWith (mimeType media) (lit "video/")
      then match generateContent (requestOf media) with
           | Returns text => (Returns text, sent ++ [requestOf media])
           | Throws e => (Returns (caught e), sent ++ [requestOf media])
           end
      else (Returns (lit "Error: " ++ invalidFileType), sent)
  end.
Proof.
  unfold analyzeVideo, Async.tryCatch, Async.bind, Async.await,
    callGenerateContent, Async.throw, Async.ret, requestOf.
  destruct (fileToBase64 file) as [media | [m|]]; try reflexivity.
  destruct (startsWith (mimeType media) (lit "video/")); simpl;
    [|reflexivity].
  destruct (generateContent _) as [text | [m|]]; reflexivity.
Qed.

(** [analyzeVideo] never throws: it always returns a string. *)
Lemma analyzeVideo_returns (file : File) (sent : list GenerateContentParameters) :
  exists result sent', analyze file sent = (Returns result, sent').
Proof.
  rewrite analyzeVideo_paths.
  destruct (fileToBase64 file) as [media | e]; [|eauto].
  destruct (startsWith _ _); [|eauto].
  destruct (generateContent _); eauto.
Qed.

(** A failure that throws an [Error] instance is reported with the
    prefix. *)
Lemma caught_error_prefixed (message : jsstring) :
  startsWith (caught (ErrorInstance message)) (lit "Error: ") = true.
Proof. unfold caught. apply startsWith_app. Qed.

(** C8: when the MIME type that [fileToBase64] extracts does not begin
    with "video/", [analyzeVideo] returns its error string for an invalid
    file type and the log of requests sent to the remote model is
    unchanged: no request is made. *)
Theorem non_video_rejected_before_request
    (file : File) (media : EncodedMedia)
    (sent : list GenerateContentParameters) :
  fileToBase64 file = Returns media ->
  startsWith (mimeType media) (lit "video/") = false ->
  analyze file sent = (Returns (lit "Error: " ++ invalidFileType), sent)
  /\ startsWith (lit "Error: " ++ invalidFileType) (lit "Error: ") = true.
Proof.
  intros Hfile Hmime. split; [|reflexivity].
  now rewrite analyzeVideo_paths, Hfile, Hmime.
Qed.

(** C10: [handleAnalyzeVideo], for a selected file, sets the error state
    and leaves the analysis unset if and only if the string returned by
    [analyzeVideo] starts with "Error:", and otherwise stores the string as
    the analysis.  So an answer of the model that begins with "Error:" is
    shown as an error, and the fallback string of a failure that threw no
    [Error] instance is stored as the analysis. *)
Theorem handleAnalyzeVideo_classifies_by_prefix
    (st : AppState File) (file : File)
    (sent : list GenerateContentParameters) :
  videoFile st = Some file ->
  exists result sent' st',
    analyze file sent = (Returns result, sent')
    /\ handle st sent = (Returns st', sent')
    /\ isLoading st' = false
    /\ ((error st' <> None /\ analysisResult st' = None)
        <-> startsWith result (lit "Error:") = true)
    /\ (startsWith result (lit "Error:") = true -> error st' = Some result)
    /\ (startsWith result (lit "Error:") = false ->
        error st' = None /\ analysisResult st' = Some result)
    /\ (forall media text,
          fileToBase64 file = Returns media ->
          startsWith (mimeType media) (lit "video/") = true ->
          generateContent (requestOf media) = Returns text ->
          startsWith text (lit "Error:") = true ->
          error st' = Some text /\ analysisResult st' = None)
    /\ (forall media,
          fileToBase64 file = Returns media ->
          startsWith (mimeType media) (lit "video/") = true ->
          generateContent (requestOf media) = Throws NotAnError ->
          error st' = None /\ analysisResult st' = Some unknownAnalysisError).
Proof.
  intros Hfile.
  destruct (analyzeVideo_returns file sent) as (result & sent' & Hrun).
  assert (Hhandle :
    handle st sent =
    (Returns
       (if startsWith result (lit "Error:")
        then {| videoFile := Some file; isLoading := false;
                analysisResult := None; error := Some result |}
        else {| videoFile := Some file; isLoading := false;
                analysisResult := Some result; error := None |}),
     sent')).
  { unfold handleAnalyzeVideo. rewrite Hfile.
    unfold Async.bind, Async.tryCatch. rewrite Hrun.
    destruct (startsWith result (lit "Error:"));
      unfold Async.throw, Async.ret, setIsLoading, setError,
        setAnalysisResult; simpl; now rewrite Hfile. }
  exists result, sent'. eexists. split; [exact Hrun|]. split; [exact Hhandle|].
  assert (Hpaths := analyzeVideo_paths file sent). rewrite Hrun in Hpaths.
  destruct (startsWith result (lit "Error:")) eqn:Hprefix;
    cbn [error analysisResult isLoading].
  - split; [reflexivity|]. split; [split; [reflexivity | now split]|].
    split; [reflexivity|]. split; [discriminate|]. split.
    + intros media text Hmedia Hmime Htext _.
      rewrite Hmedia, Hmime, Htext in Hpaths. now inversion Hpaths.
    + intros media Hmedia Hmime Hthrow.
      rewrite Hmedia, Hmime, Hthrow in Hpaths. inversion Hpaths; subst.
      vm_compute in Hprefix. discriminate.
  - split; [reflexivity|]. split; [split; [now intros [H _] | discriminate]|].
    split; [discriminate|]. split; [now split|]. split.
    + intros media text Hmedia Hmime Htext Ht.
      rewrite Hmedia, Hmime, Htext in Hpaths. inversion Hpaths; subst.
      congruence.
    + intros media Hmedia Hmime Hthrow.
      rewrite Hmedia, Hmime, Hthrow in Hpaths. now inversion Hpaths.
Qed.

End ClientFacts.

Lemma non_video_rejected_png :
  analyzeVideo unit (fun _ => Returns png) answersErrorText samplePrompt tt []
    = (Returns (lit "Error: " ++ invalidFileType), [])
  /\ startsWith (lit "Error: " ++ invalidFileType) (lit "Error: ") = true.
Proof.
  apply (non_video_rejected_before_request
           unit (fun _ => Returns png) answersErrorText samplePrompt
           tt png []); reflexivity.
Defined.

(** An answer of the model that begins with "Error:" ends in the error
    state, with no analysis stored. *)
Lemma handleAnalyzeVideo_error_text_answer :
  exists sent' st',
    handleAnalyzeVideo unit (fun _ => Returns mp4) answersErrorText
      samplePrompt (idle tt) [] = (Returns st', sent')
    /\ error st' = Some (lit "Error: none found. GLOBAL COHESION BLOCK")
    /\ analysisResult st' = None.
Proof.
  destruct (handleAnalyzeVideo_classifies_by_prefix
              unit (fun _ => Returns mp4) answersErrorText samplePrompt
              (idle tt) tt [] eq_refl)
    as (result & sent' & st' & _ & Hhandle & _ & _ & _ & _ & Hanswer & _).
  exists sent', st'. split; [exact Hhandle|].
  apply (Hanswer mp4); reflexivity.
Defined.

(** C1 fails on a failure that throws a value which is not an [Error]
    instance: whether the remote call or [fileToBase64] rejects with such a
    value, [analyzeVideo] returns the fixed string "An unknown error
    occurred during video analysis.", which does not start with
    "Error: " -- nor with the "Error:" its caller tests for. *)
Theorem analyzeVideo_unknown_error_unprefixed :
  Async.run
    (analyzeVideo unit (fun _ => Returns mp4) rejectsWithNonError
       samplePrompt tt)
    = (Returns unknownAnalysisError, [requestOf samplePrompt mp4])
  /\ Async.run
       (analyzeVideo unit (fun _ => Throws NotAnError) answersErrorText
          samplePrompt tt)
     = (Returns unknownAnalysisError, [])
  /\ startsWith unknownAnalysisError (lit "Error: ") = false
  /\ startsWith unknownAnalysisError (lit "Error:") = false.
Proof. repeat split; vm_compute; reflexivity. Qed.

(** * Further properties of the code *)

(** ** More on trimming and splitting *)

Module TrimFacts.

Lemma trimStart_split (s : jsstring) :
  exists ws, s = ws ++ trimStart s /\ isBlank ws = true.
Proof.
  induction s as [|c s (ws & E & B)]; [now exists []|].
  simpl. destruct (isWhiteSpace c) eqn:Hc.
  - exists (c :: ws). simpl. rewrite Hc, B. now rewrite E at 1.
  - now exists [].
Qed.

Lemma trimStart_blank_app (ws s : jsstring) :
  isBlank ws = true -> trimStart (ws ++ s) = trimStart s.
Proof.
  induction ws as [|c ws IH]; [reflexivity|].
  simpl. intros H. apply andb_true_iff in H as [Hc Hws].
  rewrite Hc. now apply IH.
Qed.

Lemma trimStart_nonblank_app (p q : jsstring) :
  isBlank p = false -> trimStart (p ++ q) = trimStart p ++ q.
Proof.
  induction p as [|c p IH]; [discriminate|].
  simpl. destruct (isWhiteSpace c); simpl; [exact IH | reflexivity].
Qed.

Lemma isBlank_app (p q : jsstring) :
  isBlank (p ++ q) = isBlank p && isBlank q.
Proof. apply forallb_app. Qed.

Lemma trimEnd_split (s : jsstring) :
  exists ws, s = trimEnd s ++ ws /\ isBlank ws = true.
Proof.
  unfold trimEnd. destruct (trimStart_split (rev s)) as (ws & E & B).
  exists (rev ws). split.
  - rewrite <- rev_app_distr, <- E. symmetry. apply rev_involutive.
  - now rewrite JsFacts.isBlank_rev.
Qed.

Lemma trimEnd_blank_app (s ws : jsstring) :
  isBlank ws = true -> trimEnd (s ++ ws) = trimEnd s.
Proof.
  intros H. unfold trimEnd. rewrite rev_app_distr, trimStart_blank_app;
    [reflexivity|]. now rewrite JsFacts.isBlank_rev.
Qed.

(** [trim] removes a blank prefix and a blank suffix, nothing else. *)
Lemma trim_split (s : jsstring) :
  exists l r, s = l ++ trim s ++ r /\ isBlank l = true /\ isBlank r = true.
Proof.
  destruct (trimStart_split s) as (l & El & Bl).
  destruct (trimEnd_split (trimStart s)) as (r & Er & Br).
  exists l, r. unfold trim. now rewrite <- Er.
Qed.

Lemma trimStart_head (s : jsstring) (c : code_unit) (t : jsstring) :
  trimStart s = c :: t -> isWhiteSpace c = false.
Proof.
  destruct (JsFacts.trimStart_cases s) as [[E _] | (d & u & E & H)];
    rewrite E; intros X; [discriminate | now inversion X; subst].
Qed.

Lemma trim_isTrimmed (s : jsstring) : isTrimmed (trim s) = true.
Proof.
  unfold trim, trimEnd.
  destruct (trimStart s) as [|c t] eqn:Ex; [reflexivity|].
  pose proof (trimStart_head _ _ _ Ex) as Hc.
  destruct (trimStart_split (rev (c :: t))) as (ws & E & B).
  destruct (trimStart (rev (c :: t))) as [|d u] eqn:Ey.
  - rewrite app_nil_r in E. rewrite <- E, JsFacts.isBlank_rev in B.
    simpl in B. now rewrite Hc in B.
  - pose proof (trimStart_head _ _ _ Ey) as Hd.
    apply (f_equal (@rev code_unit)) in E.
    rewrite rev_involutive, rev_app_distr in E.
    change (rev (d :: u)) with (rev u ++ [d]) in *.
    destruct (rev u ++ [d]) as [|x xs] eqn:Ez.
    + now destruct (rev u).
    + simpl in E. inversion E; subst x.
      unfold isTrimmed. rewrite Hc. simpl negb at 1. rewrite andb_true_l.
      rewrite <- Ez, last_last. now rewrite Hd.
Qed.

Lemma trim_blank_around (l p r : jsstring) :
  isBlank l = true -> isBlank r = true -> trim (l ++ p ++ r) = trim p.
Proof.
  intros Hl Hr. unfold trim. rewrite trimStart_blank_app by exact Hl.
  destruct (isBlank p) eqn:Hp.
  - rewrite trimStart_blank_app by exact Hp.
    now rewrite !JsFacts.trimStart_blank.
  - rewrite trimStart_nonblank_app by exact Hp.
    now apply trimEnd_blank_app.
Qed.

Lemma lacks_app (c : code_unit) (p q : jsstring) :
  lacks c (p ++ q) = lacks c p && lacks c q.
Proof. unfold lacks. now rewrite existsb_app, negb_orb. Qed.

Lemma trim_lacks (c : code_unit) (s : jsstring) :
  lacks c s = true -> lacks c (trim s) = true.
Proof.
  destruct (trim_split s) as (l & r & E & _). rewrite E at 1.
  rewrite !lacks_app. intros H.
  apply andb_true_iff in H as [_ H]. now apply andb_true_iff in H as [H _].
Qed.

Lemma blank_lacks (c : code_unit) (ws : jsstring) :
  isWhiteSpace c = false -> isBlank ws = true -> lacks c ws = true.
Proof.
  intros Hc. unfold lacks. induction ws as [|d ws IH]; [reflexivity|].
  simpl. intros H. apply andb_true_iff in H as [Hd Hws].
  rewrite negb_orb, (IH Hws), andb_true_r.
  destruct (N.eqb_spec c d); [congruence | reflexivity].
Qed.

End TrimFacts.

Module SplitFacts.

Import JsFacts.

Lemma split_cons (sep : code_unit) (s : jsstring) :
  exists piece pieces, split sep s = piece :: pieces.
Proof.
  induction s as [|c s (piece & pieces & E)]; [now exists [], []|].
  rewrite split_eq, E. destruct (N.eqb c sep); eauto.
Qed.

Lemma split_pieces_lack (sep : code_unit) (s : jsstring) :
  forallb (lacks sep) (split sep s) = true.
Proof.
  induction s as [|c s IH]; [reflexivity|].
  rewrite split_eq. destruct (N.eqb_spec c sep) as [->|Hc]; [exact IH|].
  destruct (split sep s) as [|piece pieces]; simpl in *.
  - unfold lacks. simpl. destruct (N.eqb_spec sep c); [congruence | reflexivity].
  - apply andb_true_iff in IH as [Hp Hps]. rewrite Hps, andb_true_r.
    unfold lacks in *. simpl. rewrite negb_orb, Hp, andb_true_r.
    destruct (N.eqb_spec sep c); [congruence | reflexivity].
Qed.

Lemma join_cons (sep : code_unit) (p q : jsstring) (ps : list jsstring) :
  join sep (p :: q :: ps) = p ++ sep :: join sep (q :: ps).
Proof. reflexivity. Qed.

(** Joining the pieces with the separator gives the string back. *)
Lemma join_split (sep : code_unit) (s : jsstring) :
  join sep (split sep s) = s.
Proof.
  induction s as [|c s IH]; [reflexivity|].
  rewrite split_eq. destruct (N.eqb_spec c sep) as [->|Hc].
  - destruct (split_cons sep s) as (piece & pieces & E).
    rewrite E in *. now rewrite join_cons, IH.
  - destruct (split sep s) as [|piece [|q pieces]]; simpl in *;
      now rewrite <- IH.
Qed.

Lemma split_length (sep : code_unit) (s : jsstring) :
  length (split sep s) = S (countUnit sep s).
Proof.
  unfold countUnit. induction s as [|c s IH]; [reflexivity|].
  rewrite split_eq. simpl filter. rewrite (N.eqb_sym sep c).
  destruct (N.eqb c sep); simpl.
  - now rewrite IH.
  - destruct (split sep s); simpl in *; [discriminate | exact IH].
Qed.

Lemma split_prefix (sep : code_unit) (w s : jsstring) :
  lacks sep w = true ->
  exists piece pieces,
    split sep s = piece :: pieces
    /\ split sep (w ++ s) = (w ++ piece) :: pieces.
Proof.
  intros Hw. destruct (split_cons sep s) as (piece & pieces & E).
  exists piece, pieces. split; [exact E|].
  induction w as [|c w IH]; [exact E|].
  unfold lacks in Hw. simpl in Hw.
  apply negb_true_iff, orb_false_iff in Hw as [Hc Hw].
  rewrite <- app_comm_cons, split_eq. rewrite N.eqb_sym in Hc.
  rewrite Hc, IH; [reflexivity|]. now apply negb_true_iff.
Qed.

Lemma split_suffix (sep : code_unit) (s w : jsstring) :
  lacks sep w = true ->
  exists pieces piece,
    split sep s = pieces ++ [piece]
    /\ split sep (s ++ w) = pieces ++ [piece ++ w].
Proof.
  intros Hw. induction s as [|c s (pieces & piece & E & Ew)].
  - exists [], []. split; [reflexivity|]. simpl. now apply split_last.
  - rewrite <- app_comm_cons, !split_eq, E, Ew.
    destruct (N.eqb c sep).
    + now exists ([] :: pieces), piece.
    + destruct pieces as [|q qs]; simpl.
      * now exists [], (c :: piece).
      * now exists ((c :: q) :: qs), piece.
Qed.

End SplitFacts.

(** ** More on the response parser *)

Module RowFacts.

Import JsFacts TrimFacts SplitFacts.

Lemma cells_In (row cell : jsstring) :
  In cell (cells row) ->
  exists piece, In piece (split pipe row) /\ cell = trim piece.
Proof.
  unfold cells. intros H. apply filter_In in H as [H _].
  apply in_map_iff in H as (piece & E & Hin). now exists piece.
Qed.

Lemma rowOfLine_fields (line : jsstring) (row : TableRow) :
  rowOfLine line = Some row ->
  In (timestamp row) (cells line)
  /\ In (action row) (cells line)
  /\ In (notes row) (cells line).
Proof.
  intros H. apply rowOfLine_cells in H. rewrite H. simpl. tauto.
Qed.

Lemma join_lacks (c sep : code_unit) (ps : list jsstring) :
  lacks c (join sep ps) = true -> forallb (lacks c) ps = true.
Proof.
  induction ps as [|p [|q ps] IH]; intros H; [reflexivity | |].
  - simpl in *. now rewrite H.
  - rewrite join_cons in H.
    change (p ++ sep :: join sep (q :: ps))
      with (p ++ [sep] ++ join sep (q :: ps)) in H.
    rewrite !lacks_app in H.
    apply andb_true_iff in H as [Hp H]. apply andb_true_iff in H as [_ H].
    change (forallb (lacks c) (p :: q :: ps))
      with (lacks c p && forallb (lacks c) (q :: ps)).
    now rewrite Hp, IH.
Qed.

Lemma piece_lacks (c sep : code_unit) (s piece : jsstring) :
  lacks c s = true -> In piece (split sep s) -> lacks c piece = true.
Proof.
  intros H Hin. rewrite <- (join_split sep s) in H.
  apply join_lacks in H. rewrite forallb_forall in H. now apply H.
Qed.

Lemma In_skipn (A : Type) (n : nat) (x : A) (l : list A) :
  In x (skipn n l) -> In x l.
Proof.
  intros H. rewrite <- (firstn_skipn n l). apply in_or_app. now right.
Qed.

Lemma dropNull_length (rows : list (option TableRow)) :
  length (dropNull rows) <= length rows.
Proof.
  induction rows as [|[r|] rows IH]; simpl; lia.
Qed.

(** Blank pieces add no cell. *)
Lemma cells_join (pieces : list jsstring) :
  forallb (lacks pipe) pieces = true ->
  cells (join pipe pieces) =
  filter (fun cell => negb (isEmpty cell)) (map trim pieces).
Proof.
  intros H. unfold cells. destruct pieces as [|p ps]; [reflexivity|].
  now rewrite split_join.
Qed.

Lemma cells_blank_around (l line r : jsstring) :
  isBlank l = true -> isBlank r = true ->
  cells (l ++ line ++ r) = cells line.
Proof.
  intros Hl Hr. unfold cells. f_equal.
  assert (Pl : lacks pipe l = true) by now apply blank_lacks.
  assert (Pr : lacks pipe r = true) by now apply blank_lacks.
  destruct (split_suffix pipe line r Pr) as (qs & q & E & Er).
  destruct (split_prefix pipe l (line ++ r) Pl) as (p & ps & F & Fl).
  rewrite Fl, E. rewrite Er in F.
  destruct qs as [|q0 qs]; simpl in F; inversion F; subst; simpl.
  - now rewrite trim_blank_around.
  - rewrite !map_app. simpl. f_equal.
    + rewrite <- (app_nil_r p) at 1.
      now rewrite (trim_blank_around l p []).
    + f_equal. f_equal. exact (trim_blank_around [] q r eq_refl Hr).
Qed.

End RowFacts.

Module MarkerFacts.

Import JsFacts.

Lemma includes_suffix (l s m : jsstring) :
  includes (l ++ s) m = false -> includes s m = false.
Proof.
  intros H. destruct (includes s m) eqn:E; [|reflexivity].
  apply includes_spec in E as (l' & r & ->).
  assert (X : includes (l ++ l' ++ m ++ r) m = true).
  { apply includes_spec. exists (l ++ l'), r. now rewrite <- app_assoc. }
  congruence.
Qed.

Lemma lazyUntil_absent (b s : jsstring) :
  includes s b = false -> lazyUntil b s = None.
Proof.
  induction s as [|c s IH]; intros H;
    rewrite lazyUntil_eq, (includes_head _ _ H); [reflexivity|].
  now rewrite IH by exact (includes_tail _ _ _ H).
Qed.

(** Without the closing literal the pattern does not match. *)
Lemma matchBetween_unclosed (a b s : jsstring) :
  includes s b = false -> matchBetween a b s = None.
Proof.
  induction s as [|c s IH]; intros H; rewrite matchBetween_eq.
  - unfold betweenHere. destruct (consume a []) as [rest|] eqn:E;
      [|reflexivity].
    apply consume_inv in E.
    rewrite lazyUntil_absent; [reflexivity|].
    apply (includes_suffix a). now rewrite <- E.
  - unfold betweenHere. destruct (consume a (c :: s)) as [rest|] eqn:E.
    + apply consume_inv in E.
      rewrite lazyUntil_absent.
      * apply IH. exact (includes_tail _ _ _ H).
      * apply (includes_suffix a). now rewrite <- E.
    + apply IH. exact (includes_tail _ _ _ H).
Qed.

End MarkerFacts.

Import TrimFacts SplitFacts RowFacts MarkerFacts.

(** X1: every text field of a returned result is trimmed: the cohesion
    block, the technical analysis and the three cells of every row have no
    white space at their start or end. *)
Theorem result_fields_trimmed (text : jsstring) (r : ParsedAnalysis) :
  parseAnalysisResult text = Some r ->
  isTrimmed (globalCohesionBlock r) = true
  /\ isTrimmed (technicalAnalysis r) = true
  /\ forall row, In row (sceneBreakdown r) ->
       isTrimmed (timestamp row) = true
       /\ isTrimmed (action row) = true
       /\ isTrimmed (notes row) = true.
Proof.
  intros Hr. apply parse_some in Hr as (-> & -> & ->).
  assert (T : forall m, isTrimmed (trimmedCapture m) = true).
  { intros [capture|]; [apply trim_isTrimmed | reflexivity]. }
  split; [apply T|]. split; [apply T|].
  intros row Hin. unfold sceneBreakdownOf in Hin.
  apply rowsOfLines_In in Hin as (line & _ & Hline).
  apply rowOfLine_fields in Hline as (H0 & H1 & H2).
  apply cells_In in H0 as (p0 & _ & ->).
  apply cells_In in H1 as (p1 & _ & ->).
  apply cells_In in H2 as (p2 & _ & ->).
  repeat split; apply trim_isTrimmed.
Qed.

Lemma result_fields_trimmed_scenario :
  isTrimmed (lit "Characters: a dog") = true
  /\ isTrimmed (lit "Documentary style.") = true
  /\ forall row,
       In row [ {| timestamp := lit "00:00-00:05";
                   action := lit "Dog runs";
                   notes := lit "Wide shot" |} ] ->
       isTrimmed (timestamp row) = true
       /\ isTrimmed (action row) = true
       /\ isTrimmed (notes row) = true.
Proof.
  apply (result_fields_trimmed scenarioText
           {| globalCohesionBlock := lit "Characters: a dog";
              sceneBreakdown :=
                [ {| timestamp := lit "00:00-00:05";
                     action := lit "Dog runs";
                     notes := lit "Wide shot" |} ];
              technicalAnalysis := lit "Documentary style." |}).
  vm_compute. reflexivity.
Defined.

(** X2: no cell of a row of a returned result contains a pipe or a line
    feed: a row never spans two lines of the table block and never holds
    two columns in one cell. *)
Theorem row_cells_within_one_column
    (text : jsstring) (r : ParsedAnalysis) (row : TableRow) :
  parseAnalysisResult text = Some r ->
  In row (sceneBreakdown r) ->
  forall cell,
    In cell [timestamp row; action row; notes row] ->
    lacks pipe cell = true /\ lacks newline cell = true.
Proof.
  intros Hr Hin cell Hcell. apply parse_some in Hr as (_ & Hrows & _).
  rewrite Hrows in Hin. unfold sceneBreakdownOf in Hin.
  apply rowsOfLines_In in Hin as (line & Hline & Hrow).
  apply In_skipn in Hline.
  assert (Lline : lacks newline line = true).
  { pose proof (split_pieces_lack newline (tableStringOf text)) as H.
    rewrite forallb_forall in H. now apply H. }
  apply rowOfLine_cells in Hrow. rewrite <- Hrow in Hcell.
  apply cells_In in Hcell as (piece & Hpiece & ->).
  split; apply trim_lacks.
  - pose proof (split_pieces_lack pipe line) as H.
    rewrite forallb_forall in H. now apply H.
  - exact (piece_lacks newline pipe line piece Lline Hpiece).
Qed.

Lemma row_cells_within_one_column_scenario :
  lacks pipe (lit "Dog runs") = true /\ lacks newline (lit "Dog runs") = true.
Proof.
  apply (row_cells_within_one_column scenarioText
           {| globalCohesionBlock := lit "Characters: a dog";
              sceneBreakdown :=
                [ {| timestamp := lit "00:00-00:05";
                     action := lit "Dog runs";
                     notes := lit "Wide shot" |} ];
              technicalAnalysis := lit "Documentary style." |}
           {| timestamp := lit "00:00-00:05";
              action := lit "Dog runs";
              notes := lit "Wide shot" |}).
  - vm_compute. reflexivity.
  - simpl. left. reflexivity.
  - simpl. right. left. reflexivity.
Defined.

(** X3: the scene rows need both the second and the third marker.  A text
    without "TECHNICAL STYLE ANALYSIS" (a response cut off before its
    last section, say) has no rows and no technical analysis, whatever
    table it holds, so its result is absent unless the cohesion block is
    non-empty; a text without "DETAILED SCENE BREAKDOWN TABLE" has no
    cohesion block and no rows. *)
Theorem rows_need_both_table_markers (text : jsstring) :
  (includes text TECHNICAL_STYLE_ANALYSIS = false ->
   sceneBreakdownOf text = []
   /\ technicalAnalysisOf text = []
   /\ (parseAnalysisResult text = None <-> globalCohesionBlockOf text = []))
  /\ (includes text DETAILED_SCENE_BREAKDOWN_TABLE = false ->
      globalCohesionBlockOf text = []
      /\ sceneBreakdownOf text = []
      /\ (parseAnalysisResult text = None <-> technicalAnalysisOf text = [])).
Proof.
  split; intros H.
  - assert (Er : sceneBreakdownOf text = []).
    { unfold sceneBreakdownOf, tableStringOf.
      now rewrite (matchBetween_unclosed _ _ _ H). }
    assert (Et : technicalAnalysisOf text = []).
    { unfold technicalAnalysisOf. now rewrite (matchAfter_absent _ _ H). }
    split; [exact Er|]. split; [exact Et|].
    destruct (parse_cases text) as [(E & Hg & _) | [E Hn]]; rewrite E.
    + now split.
    + split; [discriminate|]. intros Hg. now destruct Hn.
  - assert (Eg : globalCohesionBlockOf text = []).
    { unfold globalCohesionBlockOf.
      now rewrite (matchBetween_unclosed _ _ _ H). }
    assert (Er : sceneBreakdownOf text = []).
    { unfold sceneBreakdownOf, tableStringOf.
      now rewrite (matchBetween_absent _ _ _ H). }
    split; [exact Eg|]. split; [exact Er|].
    destruct (parse_cases text) as [(E & _ & _ & Ht) | [E Hn]]; rewrite E.
    + now split.
    + split; [discriminate|]. intros Ht. now destruct Hn.
Qed.

(** A table cut off before the third marker is lost. *)
Lemma rows_need_both_table_markers_cut_off :
  sceneBreakdownOf
    (lit "DETAILED SCENE BREAKDOWN TABLE" ++ newline ::
     lit "| A | B | C |" ++ newline ::
     lit "|---|---|---|" ++ newline ::
     lit "| 00:00-00:05 | Dog runs | Wide shot |") = [].
Proof.
  apply (proj1 (rows_need_both_table_markers _)).
  vm_compute. reflexivity.
Defined.

(** X4: blank cells do not count.  Among the pipe-separated fields of a
    line, one that is empty or white space only is discarded before the
    cells are counted: the line gives the row, or no row, that it gives
    with that field and its pipe removed. *)
Theorem blank_field_ignored
    (before : list jsstring) (blank : jsstring) (after : list jsstring) :
  forallb (lacks pipe) (before ++ blank :: after) = true ->
  isBlank blank = true ->
  rowOfLine (join pipe (before ++ blank :: after))
  = rowOfLine (join pipe (before ++ after)).
Proof.
  intros Hp Hb. unfold rowOfLine.
  assert (Hp' : forallb (lacks pipe) (before ++ after) = true).
  { rewrite forallb_app in *. simpl in Hp.
    apply andb_true_iff in Hp as [H1 H2].
    apply andb_true_iff in H2 as [_ H2]. now rewrite H1, H2. }
  rewrite !cells_join by assumption.
  rewrite !map_app, !filter_app. simpl.
  now rewrite (trim_blank _ Hb).
Qed.

(** A line with an empty fourth column is read as a three-cell row. *)
Lemma blank_field_ignored_extra_column :
  rowOfLine (lit "| 00:00 | Dog runs | Wide shot |  |")
  = rowOfLine (lit "| 00:00 | Dog runs | Wide shot |").
Proof.
  apply (blank_field_ignored
           [ []; lit " 00:00 "; lit " Dog runs "; lit " Wide shot " ]
           (lit "  ") [ [] ]); vm_compute; reflexivity.
Defined.

(** X5: white space around a line does not matter to its row: indentation,
    trailing blanks and the carriage return of a CRLF line ending are
    stripped with the outer cells.  So a table with CRLF line endings has
    the rows of the same table with LF endings. *)
Theorem line_padding_ignored (lines : list jsstring) :
  (forall l line r,
     isBlank l = true -> isBlank r = true ->
     rowOfLine (l ++ line ++ r) = rowOfLine line)
  /\ rowsOfLines (map (fun line : jsstring => line ++ [13%N : code_unit]) lines)
     = rowsOfLines lines.
Proof.
  assert (P : forall l line r,
             isBlank l = true -> isBlank r = true ->
             rowOfLine (l ++ line ++ r) = rowOfLine line).
  { intros l line r Hl Hr. unfold rowOfLine.
    now rewrite cells_blank_around. }
  split; [exact P|].
  induction lines as [|line lines IH]; [reflexivity|].
  simpl map. rewrite !rowsOfLines_cons, IH.
  pose proof (P [] line [13%N] eq_refl eq_refl) as E. simpl app in E.
  unfold jsstring, code_unit in *. now rewrite E.
Qed.

Lemma line_padding_ignored_indented :
  rowOfLine (lit "   | 00:00 | Dog runs | Wide shot |  ")
  = rowOfLine (lit "| 00:00 | Dog runs | Wide shot |").
Proof.
  apply (proj1 (line_padding_ignored [])
           (lit "   ") (lit "| 00:00 | Dog runs | Wide shot |") (lit "  "));
    reflexivity.
Defined.

(** X6: the scene breakdown has at most as many rows as the table block
    has line feeds, less one: the header and separator lines never count. *)
Theorem rows_bounded_by_lines (text : jsstring) :
  length (sceneBreakdownOf text)
  <= countUnit newline (tableStringOf text) - 1.
Proof.
  unfold sceneBreakdownOf, rowsOfLines.
  pose proof (split_length newline (tableStringOf text)) as L.
  etransitivity; [apply dropNull_length|].
  rewrite length_map, length_skipn. lia.
Qed.

(** ** The binary encoder *)

Module EncoderFacts.

Import JsFacts FileUtils.

Lemma lazyDotUntil_eq (b s : jsstring) :
  lazyDotUntil b s =
  if startsWith s b then Some []
  else match s with
       | [] => None
       | c :: s' =>
           if isLineTerminator c then None
           else option_map (cons c) (lazyDotUntil b s')
       end.
Proof. destruct s; reflexivity. Qed.

Lemma matchDotBetween_eq (a b s : jsstring) :
  matchDotBetween a b s =
  match dotBetweenHere a b s with
  | Some capture => Some capture
  | None => match s with [] => None | _ :: s' => matchDotBetween a b s' end
  end.
Proof. destruct s; reflexivity. Qed.

Lemma startsWith_unit (b c : code_unit) (s : jsstring) :
  startsWith (c :: s) [b] = N.eqb b c.
Proof. simpl. apply andb_true_r. Qed.

Lemma lazyDotUntil_first (b : code_unit) (cap rest : jsstring) :
  lacks b cap = true -> isDotText cap = true ->
  lazyDotUntil [b] (cap ++ b :: rest) = Some cap.
Proof.
  induction cap as [|c cap IH]; intros Hb Hd.
  - simpl app. now rewrite lazyDotUntil_eq, startsWith_unit, N.eqb_refl.
  - unfold lacks in Hb. simpl in Hb, Hd.
    apply negb_true_iff, orb_false_iff in Hb as [Hc Hb].
    apply andb_true_iff in Hd as [Hl Hd]. apply negb_true_iff in Hl.
    rewrite <- app_comm_cons, lazyDotUntil_eq, startsWith_unit, Hc, Hl.
    rewrite IH; [reflexivity | now apply negb_true_iff | exact Hd].
Qed.

Lemma matchDotBetween_first (a b : code_unit) (pre cap rest : jsstring) :
  lacks a pre = true -> lacks b cap = true -> isDotText cap = true ->
  matchDotBetween [a] [b] (pre ++ a :: cap ++ b :: rest) = Some cap.
Proof.
  intros Ha Hb Hd. induction pre as [|c pre IH].
  - simpl app. rewrite matchDotBetween_eq. unfold dotBetweenHere. simpl consume.
    now rewrite N.eqb_refl, lazyDotUntil_first.
  - unfold lacks in Ha. simpl in Ha.
    apply negb_true_iff, orb_false_iff in Ha as [Hc Ha].
    rewrite <- app_comm_cons, matchDotBetween_eq. unfold dotBetweenHere.
    simpl consume. rewrite Hc. apply IH. now apply negb_true_iff.
Qed.

Lemma lazyDotUntil_sound (b : code_unit) (s cap : jsstring) :
  lazyDotUntil [b] s = Some cap ->
  exists rest,
    s = cap ++ b :: rest /\ lacks b cap = true /\ isDotText cap = true.
Proof.
  revert cap; induction s as [|c s IH]; intros cap H;
    rewrite lazyDotUntil_eq in H.
  - simpl in H. discriminate.
  - rewrite startsWith_unit in H. destruct (N.eqb_spec b c) as [->|Hc].
    + inversion H. now exists s.
    + destruct (isLineTerminator c) eqn:Hl; [discriminate|].
      destruct (lazyDotUntil [b] s) as [cap'|] eqn:E; [|discriminate].
      inversion H; subst cap.
      destruct (IH cap' eq_refl) as (rest & -> & Hb & Hd).
      exists rest. split; [reflexivity|]. split.
      * unfold lacks in *. simpl. rewrite negb_orb, Hb, andb_true_r.
        destruct (N.eqb_spec b c); [congruence | reflexivity].
      * simpl. now rewrite Hl, Hd.
Qed.

Lemma matchDotBetween_sound (a b : code_unit) (s cap : jsstring) :
  matchDotBetween [a] [b] s = Some cap ->
  exists pre rest,
    s = pre ++ a :: cap ++ b :: rest
    /\ lacks b cap = true /\ isDotText cap = true.
Proof.
  induction s as [|c s IH]; rewrite matchDotBetween_eq; unfold dotBetweenHere.
  - simpl. discriminate.
  - simpl consume. destruct (N.eqb_spec a c) as [->|Hc].
    + destruct (lazyDotUntil [b] s) as [cap'|] eqn:E.
      * intros H; inversion H; subst cap'.
        apply lazyDotUntil_sound in E as (rest & -> & Hb & Hd).
        now exists [], rest.
      * intros H. destruct (IH H) as (pre & rest & -> & Hb & Hd).
        now exists (c :: pre), rest.
    + intros H. destruct (IH H) as (pre & rest & -> & Hb & Hd).
      now exists (c :: pre), rest.
Qed.

Lemma lazyDotUntil_unclosed (b : code_unit) (s : jsstring) :
  lacks b s = true -> lazyDotUntil [b] s = None.
Proof.
  intros H. destruct (lazyDotUntil [b] s) as [cap|] eqn:E; [|reflexivity].
  apply lazyDotUntil_sound in E as (rest & -> & _).
  change (cap ++ b :: rest) with (cap ++ [b] ++ rest) in H.
  rewrite !TrimFacts.lacks_app in H. unfold lacks at 2 in H. simpl in H.
  rewrite N.eqb_refl in H. simpl in H. now rewrite andb_false_r in H.
Qed.

(** Without a colon, or without a semicolon, there is no MIME type. *)
Lemma matchDotBetween_none (a b : code_unit) (s : jsstring) :
  lacks a s = true \/ lacks b s = true ->
  matchDotBetween [a] [b] s = None.
Proof.
  intros H. destruct (matchDotBetween [a] [b] s) as [cap|] eqn:E;
    [|reflexivity].
  apply matchDotBetween_sound in E as (pre & rest & -> & _).
  change (pre ++ a :: cap ++ b :: rest)
    with (pre ++ [a] ++ cap ++ [b] ++ rest) in H.
  rewrite !TrimFacts.lacks_app in H.
  assert (Xa : lacks a [a] = false) by (unfold lacks; simpl; now rewrite N.eqb_refl).
  assert (Xb : lacks b [b] = false) by (unfold lacks; simpl; now rewrite N.eqb_refl).
  rewrite Xa, Xb in H. simpl in H.
  rewrite !andb_false_r in H. now destruct H.
Qed.

Lemma split_two (meta data : jsstring) :
  lacks comma meta = true -> lacks comma data = true ->
  split comma (meta ++ comma :: data) = [meta; data].
Proof. intros Hm Hd. now rewrite split_piece, split_last. Qed.

(** The two parts of a string with one comma. *)
Lemma split_two_inv (result meta data : jsstring) :
  split comma result = [meta; data] ->
  result = meta ++ comma :: data
  /\ lacks comma meta = true /\ lacks comma data = true.
Proof.
  intros H. pose proof (SplitFacts.join_split comma result) as J.
  pose proof (SplitFacts.split_pieces_lack comma result) as L.
  rewrite H in J, L. simpl in J, L.
  apply andb_true_iff in L as [Lm L]. apply andb_true_iff in L as [Ld _].
  now rewrite <- J.
Qed.

End EncoderFacts.

Import EncoderFacts.

(** X7: decoding a data URL.  For a loaded string of the form
    [pre : mime ; params , payload], with no colon in [pre], with [mime]
    on one line and free of semicolons, and with the comma shown as the
    only one, [onload] resolves with the payload after the comma as
    [base64Data] and the text between the first colon and the first
    semicolon after it as [mimeType]. *)
Theorem onload_decodes_data_url (pre mime params payload : jsstring) :
  lacks FileUtils.colon pre = true ->
  lacks FileUtils.semicolon mime = true ->
  isDotText mime = true ->
  lacks FileUtils.comma
    (pre ++ FileUtils.colon :: mime ++ FileUtils.semicolon :: params) = true ->
  lacks FileUtils.comma payload = true ->
  FileUtils.onload
    (pre ++ FileUtils.colon :: mime ++ FileUtils.semicolon :: params
       ++ FileUtils.comma :: payload)
  = Returns {| base64Data := payload; mimeType := mime |}.
Proof.
  intros Hpre Hsemi Hdot Hmeta Hdata. unfold FileUtils.onload.
  replace (pre ++ FileUtils.colon :: mime ++ FileUtils.semicolon :: params
             ++ FileUtils.comma :: payload)
    with ((pre ++ FileUtils.colon :: mime ++ FileUtils.semicolon :: params)
            ++ FileUtils.comma :: payload)
    by (rewrite <- app_assoc; simpl; now rewrite <- app_assoc).
  rewrite split_two by assumption. simpl.
  now rewrite matchDotBetween_first.
Qed.

Lemma onload_decodes_mp4 :
  FileUtils.onload mp4DataUrl = Returns mp4.
Proof.
  apply (onload_decodes_data_url
           (lit "data") (lit "video/mp4") (lit "base64")
           (lit "AAAAIGZ0eXBpc29t")); reflexivity.
Defined.

(** X8: [onload] rejects with the error "Invalid data URL format" exactly
    for the loaded strings that do not contain exactly one comma. *)
Theorem onload_invalid_format_iff (result : jsstring) :
  FileUtils.onload result = Throws (ErrorInstance FileUtils.invalidDataUrl)
  <-> countUnit FileUtils.comma result <> 1.
Proof.
  unfold FileUtils.onload.
  rewrite SplitFacts.split_length.
  destruct (Nat.eqb_spec (S (countUnit FileUtils.comma result)) 2) as [E|E];
    simpl.
  - split; [|lia].
    destruct (FileUtils.matchDotBetween _ _ _); intros H; [discriminate|].
    exfalso. vm_compute in H. discriminate.
  - split; [lia | reflexivity].
Qed.

(** A loaded string without any comma. *)
Lemma onload_invalid_format_no_comma :
  FileUtils.onload (lit "not a data URL")
  = Throws (ErrorInstance FileUtils.invalidDataUrl).
Proof.
  apply (proj2 (onload_invalid_format_iff (lit "not a data URL"))).
  vm_compute. discriminate.
Defined.

(** X9: what [onload] resolves with, read back.  The loaded string is the
    metadata, one comma, and the [base64Data], neither part containing a
    comma; and the [mimeType] stands in the metadata between a colon and a
    semicolon, is on one line and contains no semicolon. *)
Theorem onload_resolves_with_parts (result : jsstring) (media : EncodedMedia) :
  FileUtils.onload result = Returns media ->
  exists meta pre rest,
    result = meta ++ FileUtils.comma :: base64Data media
    /\ lacks FileUtils.comma meta = true
    /\ lacks FileUtils.comma (base64Data media) = true
    /\ meta = pre ++ FileUtils.colon :: mimeType media
                ++ FileUtils.semicolon :: rest
    /\ lacks FileUtils.semicolon (mimeType media) = true
    /\ isDotText (mimeType media) = true.
Proof.
  unfold FileUtils.onload. intros H.
  destruct (Nat.eqb_spec (length (split FileUtils.comma result)) 2) as [E|E];
    simpl in H; [|discriminate].
  destruct (split FileUtils.comma result) as [|meta [|data [|x xs]]] eqn:S;
    try discriminate.
  simpl in H.
  destruct (FileUtils.matchDotBetween _ _ meta) as [mime|] eqn:M;
    [|discriminate].
  inversion H; subst media; simpl.
  apply split_two_inv in S as (-> & Lm & Ld).
  apply matchDotBetween_sound in M as (pre & rest & -> & Ls & Dt).
  now exists (pre ++ FileUtils.colon :: mime ++ FileUtils.semicolon :: rest),
    pre, rest.
Qed.

Lemma onload_resolves_with_parts_mp4 :
  exists meta pre rest,
    mp4DataUrl = meta ++ FileUtils.comma :: base64Data mp4
    /\ lacks FileUtils.comma meta = true
    /\ lacks FileUtils.comma (base64Data mp4) = true
    /\ meta = pre ++ FileUtils.colon :: mimeType mp4
                ++ FileUtils.semicolon :: rest
    /\ lacks FileUtils.semicolon (mimeType mp4) = true
    /\ isDotText (mimeType mp4) = true.
Proof.
  apply (onload_resolves_with_parts mp4DataUrl mp4). reflexivity.
Defined.

(** X10: a loaded string with exactly one comma whose metadata, the part
    before the comma, has no colon or no semicolon is rejected with the
    error "Could not determine MIME type from data URL". *)
Theorem onload_without_mime_type (meta data : jsstring) :
  lacks FileUtils.comma meta = true ->
  lacks FileUtils.comma data = true ->
  lacks FileUtils.colon meta = true \/ lacks FileUtils.semicolon meta = true ->
  FileUtils.onload (meta ++ FileUtils.comma :: data)
  = Throws (ErrorInstance FileUtils.noMimeType).
Proof.
  intros Hm Hd H. unfold FileUtils.onload.
  rewrite split_two by assumption. simpl.
  now rewrite matchDotBetween_none.
Qed.

(** A data URL that is not base64-encoded has no semicolon. *)
Lemma onload_without_mime_type_plain :
  FileUtils.onload (lit "data:text/plain,hello")
  = Throws (ErrorInstance FileUtils.noMimeType).
Proof.
  apply (onload_without_mime_type (lit "data:text/plain") (lit "hello"));
    [reflexivity | reflexivity | right; reflexivity].
Defined.

(** ** The client, its caller and the page *)

Section CallerFacts.

Variable File : Type.
Variable fileToBase64 : File -> Completion EncodedMedia.
Variable generateContent : GenerateContentParameters -> Completion jsstring.
Variable PROMPT : jsstring.

Local Abbreviation analyze :=
  (analyzeVideo File fileToBase64 generateContent PROMPT).
Local Abbreviation handle :=
  (handleAnalyzeVideo File fileToBase64 generateContent PROMPT).

(** [handleAnalyzeVideo] for a selected file is its two halves around the
    call of [analyzeVideo]. *)
Lemma handleAnalyzeVideo_halves
    (st : AppState File) (file : File)
    (sent : list GenerateContentParameters) :
  videoFile st = Some file ->
  handle st sent =
  (Returns (afterAwait File (fst (analyze file sent)) (beforeAwait File st)),
   snd (analyze file sent)).
Proof.
  intros Hfile. unfold handleAnalyzeVideo. rewrite Hfile.
  unfold Async.bind, Async.tryCatch, afterAwait, beforeAwait.
  destruct (analyze file sent) as [[result|e] sent']; cbn [fst snd];
    [destruct (startsWith result (lit "Error:"))|]; reflexivity.
Qed.

(** The state after a call that returned [result]. *)
Lemma handleAnalyzeVideo_final
    (st : AppState File) (file : File)
    (sent sent' : list GenerateContentParameters) (result : jsstring) :
  videoFile st = Some file ->
  analyze file sent = (Returns result, sent') ->
  handle st sent =
  (Returns
     (if startsWith result (lit "Error:")
      then {| videoFile := Some file; isLoading := false;
              analysisResult := None; error := Some result |}
      else {| videoFile := Some file; isLoading := false;
              analysisResult := Some result; error := None |}),
   sent').
Proof.
  intros Hfile Hrun. rewrite (handleAnalyzeVideo_halves st file sent Hfile).
  rewrite Hrun. cbn [fst snd]. unfold afterAwait, beforeAwait.
  destruct (startsWith result (lit "Error:"));
    unfold setIsLoading, setError, setAnalysisResult; simpl;
    now rewrite Hfile.
Qed.

(** X11: [analyzeVideo] never throws and sends at most one request: the
    log of requests it leaves is the one it found, or that log with one
    request added, and this only for a file that [fileToBase64] resolved
    with a MIME type beginning with "video/"; the request then carries
    that payload and MIME type, the prompt, the model name and the thinking
    budget. *)
Theorem analyzeVideo_sends_at_most_one_request
    (file : File) (sent : list GenerateContentParameters) :
  exists result sent',
    analyze file sent = (Returns result, sent')
    /\ (sent' = sent
        \/ exists media,
             fileToBase64 file = Returns media
             /\ startsWith (mimeType media) (lit "video/") = true
             /\ sent' = sent ++ [ {| model := lit "gemini-2.5-pro";
                                     inlineData := media;
                                     textPart := PROMPT;
                                     thinkingBudget := 32768 |} ]).
Proof.
  rewrite analyzeVideo_paths.
  destruct (fileToBase64 file) as [media | e] eqn:Hfile; [|eauto].
  destruct (startsWith (mimeType media) (lit "video/")) eqn:Hmime; [|eauto].
  assert (R : requestOf PROMPT media =
              {| model := lit "gemini-2.5-pro"; inlineData := media;
                 textPart := PROMPT; thinkingBudget := 32768 |})
    by now destruct media.
  rewrite R.
  destruct (generateContent _) as [text | e]; do 2 eexists;
    (split; [reflexivity|]); right; now exists media.
Qed.

(** X12: [handleAnalyzeVideo] never throws and never changes the selected
    file.  With no file selected it sends nothing and only sets the error
    "Please select a video file first."; with a file selected it ends with
    [isLoading] false and with the error or the analysis set, never
    both. *)
Theorem handleAnalyzeVideo_outcome
    (st : AppState File) (sent : list GenerateContentParameters) :
  exists st' sent',
    handle st sent = (Returns st', sent')
    /\ videoFile st' = videoFile st
    /\ (videoFile st = None ->
        sent' = sent
        /\ error st' = Some (lit "Please select a video file first.")
        /\ analysisResult st' = analysisResult st
        /\ isLoading st' = isLoading st)
    /\ (videoFile st <> None ->
        isLoading st' = false
        /\ ((error st' = None /\ analysisResult st' <> None)
            \/ (error st' <> None /\ analysisResult st' = None))).
Proof.
  destruct (videoFile st) as [file|] eqn:Hfile.
  - destruct (analyzeVideo_returns File fileToBase64 generateContent PROMPT
                file sent) as (result & sent' & Hrun).
    rewrite (handleAnalyzeVideo_final st file sent sent' result Hfile Hrun).
    do 2 eexists. split; [reflexivity|].
    destruct (startsWith result (lit "Error:")); cbn.
    + split; [reflexivity|]. split; [discriminate|]. intros _.
      split; [reflexivity|]. right. split; [discriminate | reflexivity].
    + split; [reflexivity|]. split; [discriminate|]. intros _.
      split; [reflexivity|]. left. split; [reflexivity | discriminate].
  - unfold handleAnalyzeVideo. rewrite Hfile. unfold Async.ret.
    do 2 eexists. split; [reflexivity|]. cbn. rewrite Hfile.
    split; [reflexivity|]. split; [now intros _ | now intros H].
Qed.

(** X13: what the page shows after [handleAnalyzeVideo] for a selected
    file, by the string [analyzeVideo] returned: the error box alone for a
    string beginning with "Error:"; nothing at all, no error either, for
    the empty string; otherwise the analysis panel alone, with the
    structured display if the string parses and its raw text if not.  The
    loader is never left showing. *)
Theorem page_after_analysis
    (st : AppState File) (file : File)
    (sent sent' : list GenerateContentParameters) (result : jsstring) :
  videoFile st = Some file ->
  analyze file sent = (Returns result, sent') ->
  exists st',
    handle st sent = (Returns st', sent')
    /\ renderResultSection File st' =
       if startsWith result (lit "Error:")
       then {| loader := false; errorBox := Some result;
               analysisPanel := None |}
       else if isEmpty result
       then {| loader := false; errorBox := None; analysisPanel := None |}
       else {| loader := false; errorBox := None;
               analysisPanel :=
                 Some match parseAnalysisResult result with
                      | Some analysis => AnalysisDisplay analysis
                      | None => RawText result
                      end |}.
Proof.
  intros Hfile Hrun.
  rewrite (handleAnalyzeVideo_final st file sent sent' result Hfile Hrun).
  eexists. split; [reflexivity|].
  destruct (startsWith result (lit "Error:")) eqn:Hprefix.
  - unfold renderResultSection, whenTruthy. cbn [error analysisResult isLoading].
    destruct result as [|c result]; [discriminate | reflexivity].
  - unfold renderResultSection, whenTruthy, parsedResult.
    cbn [error analysisResult isLoading].
    destruct (isEmpty result); reflexivity.
Qed.

End CallerFacts.

(** Without a file the button's handler only sets the error. *)
Lemma handleAnalyzeVideo_outcome_no_file :
  exists st',
    handleAnalyzeVideo unit (fun _ => Returns mp4) (answers scenarioText)
      samplePrompt initial [] = (Returns st', [])
    /\ error st' = Some (lit "Please select a video file first.")
    /\ analysisResult st' = None.
Proof.
  destruct (handleAnalyzeVideo_outcome
              unit (fun _ => Returns mp4) (answers scenarioText) samplePrompt
              initial [])
    as (st' & sent' & Hrun & _ & Hnone & _).
  destruct (Hnone eq_refl) as (-> & Herror & Hresult & _).
  exists st'. split; [exact Hrun|]. split; [exact Herror | exact Hresult].
Defined.

(** An empty answer of the model leaves the page empty. *)
Lemma page_after_empty_answer :
  exists st',
    handleAnalyzeVideo unit (fun _ => Returns mp4) (answers [])
      samplePrompt (idle tt) [] = (Returns st', [requestOf samplePrompt mp4])
    /\ renderResultSection unit st' =
       {| loader := false; errorBox := None; analysisPanel := None |}.
Proof.
  apply (page_after_analysis
           unit (fun _ => Returns mp4) (answers []) samplePrompt
           (idle tt) tt [] [requestOf samplePrompt mp4] []);
    reflexivity.
Defined.

(** ** The client on top of the encoder *)

Section EncoderClient.

Variable File : Type.
Variable readAsDataURL : File -> FileUtils.ReadEvent.
Variable generateContent : GenerateContentParameters -> Completion jsstring.
Variable PROMPT : jsstring.

Local Abbreviation encode := (FileUtils.fileToBase64 File readAsDataURL).
Local Abbreviation analyze :=
  (analyzeVideo File encode generateContent PROMPT).
Local Abbreviation handle :=
  (handleAnalyzeVideo File encode generateContent PROMPT).

(** X14: when the [FileReader] fails, [fileToBase64] rejects with the
    reader's event, which is no [Error]; [analyzeVideo] then sends no
    request and returns "An unknown error occurred during video
    analysis."; and [handleAnalyzeVideo] stores that sentence as the
    analysis, with no error set, so that the page shows it as raw
    analysis text. *)
Theorem read_failure_shown_as_analysis
    (st : AppState File) (file : File)
    (sent : list GenerateContentParameters) :
  readAsDataURL file = FileUtils.ReadError ->
  videoFile st = Some file ->
  encode file = Throws NotAnError
  /\ analyze file sent = (Returns unknownAnalysisError, sent)
  /\ exists st',
       handle st sent = (Returns st', sent)
       /\ error st' = None
       /\ analysisResult st' = Some unknownAnalysisError
       /\ renderResultSection File st' =
          {| loader := false; errorBox := None;
             analysisPanel := Some (RawText unknownAnalysisError) |}.
Proof.
  intros Hread Hfile.
  assert (He : encode file = Throws NotAnError).
  { unfold FileUtils.fileToBase64. now rewrite Hread. }
  assert (Hrun : analyze file sent = (Returns unknownAnalysisError, sent)).
  { now rewrite analyzeVideo_paths, He. }
  split; [exact He|]. split; [exact Hrun|].
  rewrite (handleAnalyzeVideo_final File encode generateContent PROMPT
             st file sent sent unknownAnalysisError Hfile Hrun).
  eexists. split; [reflexivity|]. now vm_compute.
Qed.

(** X15: every rejection that comes from the [onload] handler is an
    [Error] with one of its two messages; [analyzeVideo] then sends no
    request and returns the message behind "Error: ", and
    [handleAnalyzeVideo] shows exactly that string in the error box. *)
Theorem malformed_data_url_reported
    (st : AppState File) (file : File) (result : jsstring) (e : Thrown)
    (sent : list GenerateContentParameters) :
  readAsDataURL file = FileUtils.Loaded result ->
  FileUtils.onload result = Throws e ->
  videoFile st = Some file ->
  exists message,
    e = ErrorInstance message
    /\ (message = FileUtils.invalidDataUrl \/ message = FileUtils.noMimeType)
    /\ analyze file sent = (Returns (lit "Error: " ++ message), sent)
    /\ exists st',
         handle st sent = (Returns st', sent)
         /\ renderResultSection File st' =
            {| loader := false;
               errorBox := Some (lit "Error: " ++ message);
               analysisPanel := None |}.
Proof.
  intros Hread Hload Hfile.
  assert (He : encode file = Throws e).
  { unfold FileUtils.fileToBase64. now rewrite Hread. }
  assert (Hm : exists message,
             e = ErrorInstance message
             /\ (message = FileUtils.invalidDataUrl
                 \/ message = FileUtils.noMimeType)).
  { unfold FileUtils.onload in Hload.
    destruct (negb _) in Hload.
    - inversion Hload. eauto.
    - destruct (FileUtils.matchDotBetween _ _ _) in Hload;
        inversion Hload. eauto. }
  destruct Hm as (message & -> & Hm). exists message.
  assert (Hrun : analyze file sent = (Returns (lit "Error: " ++ message), sent)).
  { now rewrite analyzeVideo_paths, He. }
  split; [reflexivity|]. split; [exact Hm|]. split; [exact Hrun|].
  rewrite (handleAnalyzeVideo_final File encode generateContent PROMPT
             st file sent sent (lit "Error: " ++ message) Hfile Hrun).
  eexists. split; [reflexivity|]. reflexivity.
Qed.

(** X16: for a file read as a data URL [pre : mime ; params , payload]
    (no colon in [pre], [mime] on one line and free of semicolons, one
    comma) whose [mime] begins with "video/", [analyzeVideo] sends exactly
    one request, carrying [payload] and [mime] unchanged beside the
    prompt, and returns the model's text as it is, or the string of its
    [catch] block if the call fails. *)
Theorem video_data_url_sent_once
    (file : File) (pre mime params payload : jsstring)
    (sent : list GenerateContentParameters) :
  readAsDataURL file =
    FileUtils.Loaded
      (pre ++ FileUtils.colon :: mime ++ FileUtils.semicolon :: params
         ++ FileUtils.comma :: payload) ->
  lacks FileUtils.colon pre = true ->
  lacks FileUtils.semicolon mime = true ->
  isDotText mime = true ->
  lacks FileUtils.comma
    (pre ++ FileUtils.colon :: mime ++ FileUtils.semicolon :: params) = true ->
  lacks FileUtils.comma payload = true ->
  startsWith mime (lit "video/") = true ->
  let request :=
    {| model := lit "gemini-2.5-pro";
       inlineData := {| base64Data := payload; mimeType := mime |};
       textPart := PROMPT;
       thinkingBudget := 32768 |} in
  analyze file sent =
  (Returns match generateContent request with
           | Returns text => text
           | Throws e => caught e
           end,
   sent ++ [request]).
Proof.
  intros Hread Hpre Hsemi Hdot Hmeta Hdata Hvideo request.
  assert (He : encode file =
               Returns {| base64Data := payload; mimeType := mime |}).
  { unfold FileUtils.fileToBase64. rewrite Hread.
    unfold FileUtils.onload.
    replace (pre ++ FileUtils.colon :: mime ++ FileUtils.semicolon :: params
               ++ FileUtils.comma :: payload)
      with ((pre ++ FileUtils.colon :: mime ++ FileUtils.semicolon :: params)
              ++ FileUtils.comma :: payload)
      by (rewrite <- app_assoc; simpl; now rewrite <- app_assoc).
    rewrite split_two by assumption. simpl.
    now rewrite matchDotBetween_first. }
  rewrite analyzeVideo_paths, He. cbn [mimeType base64Data]. rewrite Hvideo.
  unfold requestOf. cbn [mimeType base64Data]. fold request.
  now destruct (generateContent request).
Qed.

End EncoderClient.

Lemma read_failure_shown_as_analysis_idle :
  analyzeVideo unit (FileUtils.fileToBase64 unit (fun _ => FileUtils.ReadError))
    (answers scenarioText) samplePrompt tt []
  = (Returns unknownAnalysisError, []).
Proof.
  apply (read_failure_shown_as_analysis
           unit (fun _ => FileUtils.ReadError) (answers scenarioText)
           samplePrompt (idle tt) tt []); reflexivity.
Defined.

Lemma malformed_data_url_reported_two_commas :
  exists message,
    ErrorInstance FileUtils.invalidDataUrl = ErrorInstance message
    /\ (message = FileUtils.invalidDataUrl \/ message = FileUtils.noMimeType)
    /\ analyzeVideo unit
         (FileUtils.fileToBase64 unit
            (fun _ => FileUtils.Loaded (lit "data:video/mp4;base64,AA,BB")))
         (answers scenarioText) samplePrompt tt []
       = (Returns (lit "Error: " ++ message), [])
    /\ exists st',
         handleAnalyzeVideo unit
           (FileUtils.fileToBase64 unit
              (fun _ => FileUtils.Loaded (lit "data:video/mp4;base64,AA,BB")))
           (answers scenarioText) samplePrompt (idle tt) []
         = (Returns st', [])
         /\ renderResultSection unit st' =
            {| loader := false;
               errorBox := Some (lit "Error: " ++ message);
               analysisPanel := None |}.
Proof.
  apply (malformed_data_url_reported
           unit (fun _ => FileUtils.Loaded (lit "data:video/mp4;base64,AA,BB"))
           (answers scenarioText) samplePrompt (idle tt) tt
           (lit "data:video/mp4;base64,AA,BB")
           (ErrorInstance FileUtils.invalidDataUrl) []); reflexivity.
Defined.

Lemma video_data_url_sent_once_mp4 :
  analyzeVideo unit
    (FileUtils.fileToBase64 unit (fun _ => FileUtils.Loaded mp4DataUrl))
    (answers scenarioText) samplePrompt tt []
  = (Returns scenarioText, [requestOf samplePrompt mp4]).
Proof.
  apply (video_data_url_sent_once
           unit (fun _ => FileUtils.Loaded mp4DataUrl) (answers scenarioText)
           samplePrompt tt
           (lit "data") (lit "video/mp4") (lit "base64")
           (lit "AAAAIGZ0eXBpc29t") []); reflexivity.
Defined.

(** ** The page *)

(** X17: the raw-text fallback.  For a non-empty analysis text the panel
    shows the text itself, unformatted, exactly when the parser extracts
    nothing from it: an empty cohesion block, no row and an empty technical
    analysis.  A text in which none of the three markers occurs is shown
    that way. *)
Theorem raw_text_shown_when_nothing_parsed
    (File : Type) (st : AppState File) (text : jsstring) :
  analysisResult st = Some text ->
  isEmpty text = false ->
  (analysisPanel (renderResultSection File st) = Some (RawText text)
   <-> globalCohesionBlockOf text = []
       /\ sceneBreakdownOf text = []
       /\ technicalAnalysisOf text = [])
  /\ (includes text GLOBAL_COHESION_BLOCK = false ->
      includes text DETAILED_SCENE_BREAKDOWN_TABLE = false ->
      includes text TECHNICAL_STYLE_ANALYSIS = false ->
      analysisPanel (renderResultSection File st) = Some (RawText text)).
Proof.
  intros Hst Hne.
  assert (P : analysisPanel (renderResultSection File st) =
              Some match parseAnalysisResult text with
                   | Some analysis => AnalysisDisplay analysis
                   | None => RawText text
                   end).
  { unfold renderResultSection, whenTruthy, parsedResult.
    cbn [analysisPanel]. now rewrite Hst, Hne. }
  rewrite P.
  destruct (parse_cases text) as [(E & Hg & Hr & Ht) | [E Hn]]; rewrite E.
  - split; [now split|]. reflexivity.
  - split; [split; [discriminate | intros H; now destruct Hn]|].
    intros H1 H2 H3. destruct Hn.
    unfold globalCohesionBlockOf, sceneBreakdownOf, tableStringOf,
      technicalAnalysisOf.
    rewrite (matchBetween_absent _ _ _ H1), (matchBetween_absent _ _ _ H2),
      (matchAfter_absent _ _ H3).
    now repeat split.
Qed.

Lemma raw_text_shown_for_plain_answer :
  analysisPanel
    (renderResultSection unit
       {| videoFile := Some tt; isLoading := false;
          analysisResult := Some (lit "The video shows a dog.");
          error := None |})
  = Some (RawText (lit "The video shows a dog.")).
Proof.
  apply (proj2 (raw_text_shown_when_nothing_parsed unit
                  {| videoFile := Some tt; isLoading := false;
                     analysisResult := Some (lit "The video shows a dog.");
                     error := None |}
                  (lit "The video shows a dog.") eq_refl eq_refl));
    reflexivity.
Defined.

Section Overlap.

Variable File : Type.
Variable Url : Type.
Variable createObjectURL : File -> Url.
Variable fileToBase64 : File -> Completion EncodedMedia.
Variable generateContent : GenerateContentParameters -> Completion jsstring.
Variable PROMPT : jsstring.

(** X18: choosing another file while an analysis is awaited.  The handler
    of the button is the setter calls before the [await] followed, once
    [analyzeVideo] has returned, by those after it.  If [handleFileChange]
    runs in between with a second file, the button stays disabled until
    the first analysis ends, so no second request overlaps it; but the
    answer for the first file is then stored and shown while the second
    file is the selected one. *)
Theorem analysis_of_replaced_file_is_kept
    (st : AppState File) (first second : File) (url : option Url)
    (sent sent' : list GenerateContentParameters) (result : jsstring) :
  videoFile st = Some first ->
  analyzeVideo File fileToBase64 generateContent PROMPT first sent
    = (Returns result, sent') ->
  startsWith result (lit "Error:") = false ->
  let during :=
    handleFileChange File Url createObjectURL (Some second)
      (beforeAwait File st, url) in
  let final := afterAwait File (Returns result) (fst during) in
  handleAnalyzeVideo File fileToBase64 generateContent PROMPT st sent
    = (Returns (afterAwait File (Returns result) (beforeAwait File st)), sent')
  /\ buttonDisabled File (fst during) = true
  /\ snd during = Some (createObjectURL second)
  /\ videoFile final = Some second
  /\ analysisResult final = Some result
  /\ error final = None
  /\ isLoading final = false.
Proof.
  intros Hfile Hrun Hprefix during final. split.
  - rewrite (handleAnalyzeVideo_halves File fileToBase64 generateContent
               PROMPT st first sent Hfile).
    now rewrite Hrun.
  - unfold final, during, afterAwait, handleFileChange, beforeAwait,
      buttonDisabled. rewrite Hprefix. cbn. now repeat split.
Qed.

End Overlap.

Lemma analysis_of_replaced_file_is_kept_sample :
  videoFile
    (afterAwait bool (Returns scenarioText)
       (fst (handleFileChange bool unit (fun _ => tt) (Some false)
               (beforeAwait bool
                  {| videoFile := Some true; isLoading := false;
                     analysisResult := None; error := None |}, None))))
  = Some false
  /\ analysisResult
       (afterAwait bool (Returns scenarioText)
          (fst (handleFileChange bool unit (fun _ => tt) (Some false)
                  (beforeAwait bool
                     {| videoFile := Some true; isLoading := false;
                        analysisResult := None; error := None |}, None))))
     = Some scenarioText.
Proof.
  destruct (analysis_of_replaced_file_is_kept
              bool unit (fun _ => tt) (fun _ => Returns mp4)
              (answers scenarioText) samplePrompt
              {| videoFile := Some true; isLoading := false;
                 analysisResult := None; error := None |}
              true false None [] [requestOf samplePrompt mp4] scenarioText
              eq_refl eq_refl eq_refl)
    as (_ & _ & _ & Hfile & Hresult & _).
  split; [exact Hfile | exact Hresult].
Defined.
